(** * ExpenseService (src/app/services/expense.service.ts)

    A shallow embedding of the Ionic expense service: the in-memory list of
    expense objects, the receipt life cycle (capture, temporary path,
    persisted path, display path) and the calls the service issues to its
    collaborators (StorageService, Capacitor Filesystem, Camera, fetch).

    Expense objects are JavaScript objects, shared by reference between the
    caller and [this.expenses]; they live in a heap indexed by locations.
    Every method is [async]: it runs in a state-and-error monad, where a
    rejected promise or a thrown TypeError stops the method and keeps the
    mutations made so far.

    The collaborators are not part of the sources. They are parameters of
    the service: what each call resolves or rejects to is a function of its
    arguments for the time of one operation, and every call is logged. *)

From stdpp Require Import gmap strings list pretty.

(** ** JavaScript values *)

(** A field typed [string] that the code also sets to [null] and that may be
    missing ([undefined]). *)
Inductive jsstr : Type :=
  | JUndefined
  | JNull
  | JStr (s : string).

Global Instance jsstr_eq_dec : EqDecision jsstr.
Proof. solve_decision. Defined.

(** ToBoolean on such a value: only a non-empty string is truthy. *)
Definition truthy (v : jsstr) : bool :=
  match v with
  | JStr (String _ _) => true
  | _ => false
  end.

(** ToBoolean on a number (integers only: identifiers are millisecond
    timestamps). *)
Definition number_truthy (n : Z) : bool := negb (n =? 0)%Z.

(** [n + '.jpeg']: Number::toString of an integer is its decimal numeral.
    This is exact for the safe integers, |n| < 2^53, which is where
    identifiers live (millisecond timestamps are below 2^41); beyond that
    JavaScript prints the shortest digits that round-trip (2^63 prints as
    9223372036854776000) and, from 10^21 on, an exponent. *)
Definition Number_toString (n : Z) : string := pretty n.

(** [a === b] for an [id] that may be undefined against a number. *)
Definition strict_eq (a : option Z) (b : Z) : bool :=
  match a with
  | Some x => (x =? b)%Z
  | None => false
  end.

(** ** Data model *)

(** Modelled from the spec: models/photo.ts is not part of the sources. A
    receipt has a file name, a temporary capture reference, a persisted
    reference and a display reference; the service reads and writes exactly
    these four fields. *)
Record Photo : Type := mkPhoto {
  name : jsstr;
  tempPath : jsstr;
  filePath : jsstr;
  webviewPath : jsstr;
}.

(** Modelled from the spec: models/expense.ts is not part of the sources. An
    expense has an identifier ([None] is [undefined]), an embedded receipt
    and descriptive fields the service never looks at. The receipt is held
    in its record: each record has a receipt object of its own, and a
    receipt object shared by two records is outside this model. *)
Record Expense : Type := mkExpense {
  id : option Z;
  receipt : Photo;
  details : string;
}.

Global Instance Photo_eq_dec : EqDecision Photo.
Proof. solve_decision. Defined.
Global Instance Expense_eq_dec : EqDecision Expense.
Proof. solve_decision. Defined.

Definition with_name (v : jsstr) (p : Photo) : Photo :=
  mkPhoto v (tempPath p) (filePath p) (webviewPath p).
Definition with_tempPath (v : jsstr) (p : Photo) : Photo :=
  mkPhoto (name p) v (filePath p) (webviewPath p).
Definition with_filePath (v : jsstr) (p : Photo) : Photo :=
  mkPhoto (name p) (tempPath p) v (webviewPath p).
Definition with_webviewPath (v : jsstr) (p : Photo) : Photo :=
  mkPhoto (name p) (tempPath p) (filePath p) v.

Definition with_receipt (f : Photo → Photo) (e : Expense) : Expense :=
  mkExpense (id e) (f (receipt e)) (details e).
Definition with_id (i : option Z) (e : Expense) : Expense :=
  mkExpense i (receipt e) (details e).

(** Capacitor's [Directory] enumeration. *)
Inductive Directory : Type :=
  | Documents | Data | Library | Cache | External | ExternalStorage.

Global Instance Directory_eq_dec : EqDecision Directory.
Proof. solve_decision. Defined.

(** The options of [Camera.getPhoto]. *)
Inductive CameraResultType : Type := Uri | Base64 | DataUrl.
Inductive CameraSource : Type := Prompt | Camera | Photos.
Record ImageOptions : Type := mkImageOptions {
  resultType : CameraResultType;
  source : CameraSource;
  quality : Z;
}.

(** What [fetch] resolves to, and the blob read from it. *)
Record Response : Type := mkResponse { body : string }.
Record Blob : Type := mkBlob { bytes : string }.

(** The value of [DomSanitizer.bypassSecurityTrustUrl]. *)
Inductive SafeUrl : Type := TrustedUrl (url : jsstr).

(** ** Heap, errors and collaborator calls *)

Definition loc : Type := nat.

Inductive error : Type :=
  | TypeError
  | Rejected (reason : string).

Inductive result (A : Type) : Type :=
  | Ok (a : A)
  | Err (e : error).
Arguments Ok {A} a.
Arguments Err {A} e.

(** One call issued to a collaborator, with the arguments it received. An
    object argument is recorded as its contents at the time of the call
    ([None] for a null reference). *)
Inductive event : Type :=
  | StorageInit
  | StorageReadExpenses
  | StorageCreateExpense (expense : option Expense) (current : list (option Expense))
  | StorageUpdateExpense (expense : option Expense) (current : list (option Expense))
  | StorageDeleteExpense (expense : option Expense) (current : list (option Expense))
  | FsReadFile (path : jsstr) (directory : option Directory)
  | FsWriteFile (path : jsstr) (data : string) (directory : Directory)
  | FsDeleteFile (path : jsstr) (directory : Directory)
  | Fetch (url : jsstr)
  | ResponseBlob (r : Response)
  | ReadAsDataURL (b : Blob)
  | CameraGetPhoto (options : ImageOptions).

(** The collaborators and the platform, as the service sees them during one
    operation: each call either resolves to a value or rejects.
    [getTime] is what [new Date().getTime()] reads, [fs_writeFile] resolves
    to the [uri] of the written file, [fs_readFile] to the [data] of the
    file read, and [camera_getPhoto] to the [path] and the [webPath] of the
    photo, in this order. *)
Record Env : Type := mkEnv {
  getPlatform : string;
  isNativePlatform : bool;
  convertFileSrc : string → string;
  getTime : Z;
  storage_init : result unit;
  storage_readExpenses : result (list Expense);
  storage_createExpense : option Expense → list (option Expense) → result unit;
  storage_updateExpense : option Expense → list (option Expense) → result unit;
  storage_deleteExpense : option Expense → list (option Expense) → result unit;
  fs_readFile : jsstr → option Directory → result string;
  fs_writeFile : jsstr → string → Directory → result string;
  fs_deleteFile : jsstr → Directory → result unit;
  fetch : jsstr → result Response;
  response_blob : Response → result Blob;
  readAsDataURL : Blob → result string;
  camera_getPhoto : ImageOptions → result (jsstr * jsstr);
}.

(** The state the service runs in: the object heap with its allocation
    counter, the private field [this.expenses], and the log of collaborator
    calls (oldest first). *)
Record state : Type := mkState {
  heap : gmap loc Expense;
  next : loc;
  expenses : list loc;
  trace : list event;
}.

(** ** The monad of asynchronous methods *)

Definition M (A : Type) : Type := state → result A * state.

Definition ret {A} (a : A) : M A := λ s, (Ok a, s).

Definition bind {A B} (m : M A) (k : A → M B) : M B :=
  λ s, match m s with
       | (Ok a, s') => k a s'
       | (Err e, s') => (Err e, s')
       end.

Declare Scope async_scope.
Delimit Scope async_scope with async.
Notation "x <- c1 ;; c2" := (bind c1 (λ x, c2))
  (at level 100, c1 at next level, right associativity) : async_scope.
Notation "c1 ;; c2" := (bind c1 (λ _, c2))
  (at level 100, right associativity) : async_scope.
Open Scope async_scope.

(** Append calls to the log. *)
Definition log (evs : list event) (s : state) : state :=
  mkState (heap s) (next s) (expenses s) (trace s ++ evs).

(** [await collaborator(args)]: log the call, then resolve or reject. *)
Definition await {A} (ev : event) (r : result A) : M A :=
  λ s, (r, log [ev] s).

(** Dereference an object; a null reference throws. *)
Definition deref (l : loc) : M Expense :=
  λ s, match heap s !! l with
       | Some e => (Ok e, s)
       | None => (Err TypeError, s)
       end.

(** Overwrite the object at a location. *)
Definition store (l : loc) (e : Expense) (s : state) : state :=
  mkState (<[l := e]> (heap s)) (next s) (expenses s) (trace s).

(** Assign to a property of an object; a null reference throws. *)
Definition update (l : loc) (f : Expense → Expense) : M unit :=
  λ s, match heap s !! l with
       | Some e => (Ok tt, store l (f e) s)
       | None => (Err TypeError, s)
       end.

Definition get_expenses : M (list loc) := λ s, (Ok (expenses s), s).

Definition set_expenses (ls : list loc) : M unit :=
  λ s, (Ok tt, mkState (heap s) (next s) ls (trace s)).

(** The contents of an object passed to a collaborator. *)
Definition peek (l : loc) : M (option Expense) := λ s, (Ok (heap s !! l), s).

Definition snapshot : M (list (option Expense)) :=
  λ s, (Ok ((λ l, heap s !! l) <$> expenses s), s).

(** A new object, as a collaborator hands one over: the records that
    [readExpenses] resolves to are objects of their own, distinct from every
    object the caller holds. *)
Definition alloc (e : Expense) : M loc :=
  λ s, (Ok (next s), mkState (<[next s := e]> (heap s)) (S (next s)) (expenses s) (trace s)).

Fixpoint alloc_all (es : list Expense) : M (list loc) :=
  match es with
  | [] => ret []
  | e :: es' =>
      l <- alloc e ;;
      ls <- alloc_all es' ;;
      ret (l :: ls)
  end.

(** [Array.prototype.splice(position, 1)]: a negative position counts from
    the end, a position past the end removes nothing. *)
Definition splice1 {A} (position : Z) (l : list A) : list A :=
  let len := Z.of_nat (length l) in
  let start := if (position <? 0)%Z then Z.max (len + position) 0
               else Z.min position len in
  let count := Z.min 1 (len - start) in
  take (Z.to_nat start) l ++ drop (Z.to_nat start + Z.to_nat count) l.

(** ** The service *)

Section ExpenseService.

Variable env : Env.

(** [createExpenseId]: the current time in milliseconds. *)
Definition createExpenseId : M Z := ret (getTime env).

(** The body of the loop of [loadSaved] for one element of
    [this.expenses]. *)
Definition loadSaved_step (expense : loc) : M unit :=
  e <- deref expense ;;
  if truthy (filePath (receipt e)) then
    data <- await (FsReadFile (filePath (receipt e)) (Some Data))
                  (fs_readFile env (filePath (receipt e)) (Some Data)) ;;
    update expense
      (with_receipt (with_webviewPath (JStr ("data:image/jpeg;base64," +:+ data))))
  else ret tt.

Fixpoint loadSaved_loop (ls : list loc) : M unit :=
  match ls with
  | [] => ret tt
  | expense :: ls' => loadSaved_step expense ;; loadSaved_loop ls'
  end.

Definition loadSaved : M (list loc) :=
  await StorageInit (storage_init env) ;;
  stored <- await StorageReadExpenses (storage_readExpenses env) ;;
  ls <- alloc_all stored ;;
  set_expenses ls ;;
  (if String.eqb (getPlatform env) "web" then
     ls <- get_expenses ;; loadSaved_loop ls
   else ret tt) ;;
  get_expenses.

(** [this.expenses.find(expense => expense.id === id)]. *)
Fixpoint find_id (id0 : Z) (ls : list loc) : M (option loc) :=
  match ls with
  | [] => ret None
  | expense :: ls' =>
      e <- deref expense ;;
      if strict_eq (id e) id0 then ret (Some expense) else find_id id0 ls'
  end.

Definition getExpense (id0 : Z) : M (option loc) :=
  ls <- get_expenses ;; find_id id0 ls.

(** [Capacitor.convertFileSrc] is declared on strings; the capture
    reference handed to it may be missing, and is then passed through. *)
Definition convertFileSrc_js (v : jsstr) : jsstr :=
  match v with
  | JStr p => JStr (convertFileSrc env p)
  | _ => v
  end.

Definition captureExpenseReceipt : M (SafeUrl * jsstr) :=
  let options := mkImageOptions Uri Camera 100 in
  imageData <- await (CameraGetPhoto options) (camera_getPhoto env options) ;;
  let receiptPath :=
    if isNativePlatform env then fst imageData else snd imageData in
  ret (TrustedUrl (convertFileSrc_js receiptPath), receiptPath).

(** [convertBlobToBase64]: a promise around [FileReader.readAsDataURL],
    resolved by [onload] and rejected by [onerror]. *)
Definition convertBlobToBase64 (blob : Blob) : M string :=
  await (ReadAsDataURL blob) (readAsDataURL env blob).

Definition readAsBase64 (filepath : jsstr) : M string :=
  if isNativePlatform env then
    await (FsReadFile filepath None) (fs_readFile env filepath None)
  else
    response <- await (Fetch filepath) (fetch env filepath) ;;
    blob <- await (ResponseBlob response) (response_blob env response) ;;
    convertBlobToBase64 blob.

(** [savePicture] returns [{filepath, webviewPath}]. The receipt object is
    only read, and nothing else runs in between: it is passed by value. *)
Definition savePicture (cameraPhoto : Photo) : M (jsstr * jsstr) :=
  base64Data <- readAsBase64 (tempPath cameraPhoto) ;;
  uri <- await (FsWriteFile (name cameraPhoto) base64Data Data)
               (fs_writeFile env (name cameraPhoto) base64Data Data) ;;
  if isNativePlatform env then
    ret (JStr uri, JStr (convertFileSrc env uri))
  else
    ret (name cameraPhoto, tempPath cameraPhoto).

(** The body of [if (expense.receipt.tempPath)] in [createUpdateExpense]:
    name the receipt, save the picture, and record where it went. The
    assignments go to [expense.receipt], the receipt of this record (see
    [Expense]). *)
Definition persistReceipt (expense : loc) (expenseId : Z) : M unit :=
  update expense
    (with_receipt (with_name (JStr (Number_toString expenseId +:+ ".jpeg")))) ;;
  e <- deref expense ;;
  savedReceipt <- savePicture (receipt e) ;;
  update expense (with_receipt (with_filePath (fst savedReceipt))) ;;
  update expense (with_receipt (with_tempPath JNull)) ;;
  update expense (with_receipt (with_webviewPath (snd savedReceipt))).

(** The two branches of [if (isNewExpense)] in [createUpdateExpense]. *)
Definition storeExpense (expense : loc) (expenseId : Z) (isNewExpense : bool) : M unit :=
  if isNewExpense then
    update expense (with_id (Some expenseId)) ;;
    ls <- get_expenses ;;
    set_expenses (expense :: ls) ;;
    arg <- peek expense ;;
    current <- snapshot ;;
    await (StorageCreateExpense arg current)
          (storage_createExpense env arg current)
  else
    arg <- peek expense ;;
    current <- snapshot ;;
    await (StorageUpdateExpense arg current)
          (storage_updateExpense env arg current).

Definition createUpdateExpense (expense : loc) : M loc :=
  e <- deref expense ;;
  let isNewExpense := match id e with None => true | Some _ => false end in
  expenseId <- match id e with
               | Some n => if number_truthy n then ret n else createExpenseId
               | None => createExpenseId
               end ;;
  (if truthy (tempPath (receipt e)) then persistReceipt expense expenseId
   else ret tt) ;;
  storeExpense expense expenseId isNewExpense ;;
  ret expense.

Definition removeExpense (expense : loc) (position : Z) : M unit :=
  ls <- get_expenses ;;
  set_expenses (splice1 position ls) ;;
  arg <- peek expense ;;
  current <- snapshot ;;
  await (StorageDeleteExpense arg current)
        (storage_deleteExpense env arg current) ;;
  e <- deref expense ;;
  if truthy (name (receipt e)) then
    await (FsDeleteFile (name (receipt e)) Data)
          (fs_deleteFile env (name (receipt e)) Data)
  else ret tt.

End ExpenseService.

(** ** Sample environments and states *)

Definition sample_stored : list Expense :=
  [mkExpense (Some 5%Z) (mkPhoto (JStr "5.jpeg") JNull (JStr "5.jpeg") JUndefined) "lunch";
   mkExpense (Some 7%Z) (mkPhoto JUndefined JUndefined JUndefined JUndefined) "taxi"].

(** A browser where every collaborator answers. *)
Definition web_env : Env :=
  mkEnv "web" false (λ p, "http://localhost/_capacitor_file_" +:+ p)
    1700000000000%Z (Ok tt) (Ok sample_stored)
    (λ _ _, Ok tt) (λ _ _, Ok tt) (λ _ _, Ok tt)
    (λ _ _, Ok "QUJD")
    (λ p _ _, match p with
              | JStr f => Ok ("/DATA/" +:+ f)
              | _ => Err (Rejected "invalid path")
              end)
    (λ _ _, Ok tt)
    (λ _, Ok (mkResponse "img"))
    (λ r, Ok (mkBlob (body r)))
    (λ b, Ok ("data:image/jpeg;base64," +:+ bytes b))
    (λ _, Ok (JUndefined, JStr "blob:xyz")).

(** A device where every collaborator answers. *)
Definition native_env : Env :=
  mkEnv "ios" true (λ p, "capacitor://localhost/_capacitor_file_" +:+ p)
    1700000000000%Z (Ok tt) (Ok sample_stored)
    (λ _ _, Ok tt) (λ _ _, Ok tt) (λ _ _, Ok tt)
    (λ _ _, Ok "QUJD")
    (λ p _ _, match p with
              | JStr f => Ok ("file:///data/" +:+ f)
              | _ => Err (Rejected "invalid path")
              end)
    (λ _ _, Ok tt)
    (λ _, Err (Rejected "fetch is not used on a device"))
    (λ r, Ok (mkBlob (body r)))
    (λ b, Ok ("data:image/jpeg;base64," +:+ bytes b))
    (λ _, Ok (JStr "/tmp/abc.jpg", JStr "http://localhost/abc.jpg")).

(** A browser whose Record Store rejects every deletion. *)
Definition failing_env : Env :=
  mkEnv "web" false (λ p, p) 1700000000000%Z (Ok tt) (Ok sample_stored)
    (λ _ _, Ok tt) (λ _ _, Ok tt) (λ _ _, Err (Rejected "storage unavailable"))
    (λ _ _, Ok "QUJD") (λ _ _ _, Ok "") (λ _ _, Ok tt)
    (λ _, Ok (mkResponse "img")) (λ r, Ok (mkBlob (body r)))
    (λ b, Ok (bytes b)) (λ _, Ok (JUndefined, JStr "blob:xyz")).

Definition captured : Photo :=
  mkPhoto JUndefined (JStr "blob:xyz") JUndefined JUndefined.

Definition lunch : Expense :=
  mkExpense (Some 5%Z) (mkPhoto (JStr "5.jpeg") JNull (JStr "5.jpeg") (JStr "blob:old")) "lunch".

(** The list holds [lunch]; a new record with a pending capture (object 0)
    and a record with identifier 0 and a pending capture (object 2) have
    been filled in by the caller. *)
Definition sample_state : state :=
  mkState (<[0 := mkExpense None captured "coffee"]>
             (<[1 := lunch]>
                (<[2 := mkExpense (Some 0%Z) captured "zero"]> ∅)))
          3 [1] [].


(** A browser whose Record Store rejects every creation. *)
Definition full_store_env : Env :=
  mkEnv "web" false (λ p, p) 1700000000000%Z (Ok tt) (Ok sample_stored)
    (λ _ _, Err (Rejected "quota exceeded")) (λ _ _, Ok tt) (λ _ _, Ok tt)
    (λ _ _, Ok "QUJD") (λ _ _ _, Ok "") (λ _ _, Ok tt)
    (λ _, Ok (mkResponse "img")) (λ r, Ok (mkBlob (body r)))
    (λ b, Ok (bytes b)) (λ _, Ok (JUndefined, JStr "blob:xyz")).

Definition dinner : Expense :=
  mkExpense (Some 7%Z) (mkPhoto (JStr "7.jpeg") JNull (JStr "7.jpeg") JUndefined) "dinner".

Definition hotel : Expense :=
  mkExpense (Some 8%Z) (mkPhoto (JStr "8.jpeg") JNull (JStr "8.jpeg") JUndefined) "hotel".

(** A browser where the receipt file of [dinner] has gone missing. *)
Definition missing_file_env : Env :=
  mkEnv "web" false (λ p, p) 1700000000000%Z (Ok tt)
    (Ok ([lunch] ++ dinner :: [hotel]))
    (λ _ _, Ok tt) (λ _ _, Ok tt) (λ _ _, Ok tt)
    (λ p _, if decide (p = JStr "7.jpeg")
            then Err (Rejected "File does not exist") else Ok "QUJD")
    (λ _ _ _, Ok "") (λ _ _, Ok tt)
    (λ _, Ok (mkResponse "img")) (λ r, Ok (mkBlob (body r)))
    (λ b, Ok (bytes b)) (λ _, Ok (JUndefined, JStr "blob:xyz")).

(** Two new records with a capture each (objects 0 and 1), filled in by the
    caller; the list is empty. *)
Definition two_new_state : state :=
  mkState (<[0 := mkExpense None captured "coffee"]>
             (<[1 := mkExpense None captured "tea"]> ∅))
          2 [] [].

(** * Properties *)

(** ** Reading the log of collaborator calls *)

Definition is_write (ev : event) : bool :=
  match ev with
  | FsWriteFile _ _ _ => true
  | _ => false
  end.

Definition is_delete (ev : event) : bool :=
  match ev with
  | FsDeleteFile _ _ => true
  | _ => false
  end.

(** A field that holds a string, as opposed to [null] or [undefined]. *)
Definition is_set (v : jsstr) : Prop := ∃ p, v = JStr p.

(** The identifier [createUpdateExpense] works with:
    [expense.id || this.createExpenseId()]. *)
Definition expenseId_of (env : Env) (e : Expense) : Z :=
  match id e with
  | Some n => if number_truthy n then n else getTime env
  | None => getTime env
  end.

(** The receipt invariant: the temporary and the persisted reference are not
    both active. *)
Definition receipt_inv (p : Photo) : Prop :=
  ¬ (truthy (tempPath p) = true ∧ truthy (filePath p) = true).

Definition heap_inv (s : state) : Prop :=
  ∀ l e, heap s !! l = Some e → receipt_inv (receipt e).

(** A computation that keeps the receipt invariant, however it ends. *)
Definition preserves {A} (m : M A) : Prop :=
  ∀ s, heap_inv s → heap_inv (snd (m s)).

(** The in-memory list holds no null reference. *)
Definition list_wf (s : state) : Prop :=
  ∀ l, l ∈ expenses s → is_Some (heap s !! l).

(** The record once its pending capture is saved under [fname], with the
    two references [saved] that [savePicture] returned. *)
Definition saved_receipt (fname : jsstr) (saved : jsstr * jsstr) (e : Expense) : Expense :=
  mkExpense (id e) (mkPhoto fname JNull (fst saved) (snd saved)) (details e).

(** The record as the loop of [loadSaved] leaves it: a record with a
    persisted path gets the file's contents as an inline image URL. *)
Definition inline_receipt (env : Env) (e : Expense) : Expense :=
  if truthy (filePath (receipt e)) then
    match fs_readFile env (filePath (receipt e)) (Some Data) with
    | Ok data =>
        with_receipt (with_webviewPath (JStr ("data:image/jpeg;base64," +:+ data))) e
    | Err _ => e
    end
  else e.

(** Calls that reach the file system or the network. *)
Definition is_file_call (ev : event) : bool :=
  match ev with
  | FsReadFile _ _ | FsWriteFile _ _ _ | FsDeleteFile _ _
  | Fetch _ | ResponseBlob _ | ReadAsDataURL _ => true
  | _ => false
  end.

(** Reads of the data directory, as [loadSaved] issues them. *)
Definition is_data_read (ev : event) : bool :=
  match ev with
  | FsReadFile _ (Some Data) => true
  | _ => false
  end.

(** Calls to the Record Store. *)
Definition is_storage_call (ev : event) : bool :=
  match ev with
  | StorageInit | StorageReadExpenses
  | StorageCreateExpense _ _ | StorageUpdateExpense _ _
  | StorageDeleteExpense _ _ => true
  | _ => false
  end.

(** The stored records that have a persisted receipt path. *)
Definition with_persisted_path (stored : list Expense) : list Expense :=
  List.filter (λ e, truthy (filePath (receipt e))) stored.

Lemma log_log evs1 evs2 s : log evs2 (log evs1 s) = log (evs1 ++ evs2) s.
Proof. destruct s. unfold log. simpl. by rewrite <- app_assoc. Qed.

Lemma log_nil s : log [] s = s.
Proof. destruct s. unfold log. simpl. by rewrite app_nil_r. Qed.

Lemma truthy_is_set v : truthy v = true → is_set v.
Proof. destruct v as [| |p]; try done. intros _. by exists p. Qed.

Lemma string_length_app (s1 s2 : string) :
  String.length (s1 +:+ s2) = String.length s1 + String.length s2.
Proof.
  induction s1 as [|a s1 IH]; [done|].
  change (String a s1 +:+ s2) with (String a (s1 +:+ s2)).
  cbn [String.length]. by rewrite IH.
Qed.

Lemma string_app_inj_r (s1 s2 t : string) : s1 +:+ t = s2 +:+ t → s1 = s2.
Proof.
  revert s2. induction s1 as [|a s1 IH]; intros [|b s2] Heq; [done|..].
  - apply (f_equal String.length) in Heq.
    rewrite !string_length_app in Heq. cbn [String.length] in Heq. lia.
  - apply (f_equal String.length) in Heq.
    rewrite !string_length_app in Heq. cbn [String.length] in Heq. lia.
  - change (String a (s1 +:+ t) = String b (s2 +:+ t)) in Heq.
    injection Heq as -> Heq. f_equal. by apply IH.
Qed.

Section Properties.

Variable env : Env.

(** ** Saving a picture *)

Lemma readAsBase64_inv filepath s r s' :
  readAsBase64 env filepath s = (r, s') →
  ∃ evs, s' = log evs s ∧ List.filter is_write evs = [].
Proof.
  unfold readAsBase64, convertBlobToBase64, bind, await.
  destruct (isNativePlatform env).
  - intros [= <- <-]. by eexists.
  - destruct (fetch env filepath) as [resp|]; simpl.
    + destruct (response_blob env resp) as [b|]; simpl;
        intros [= <- <-]; rewrite !log_log; by eexists.
    + intros [= <- <-]. by eexists.
Qed.

Lemma savePicture_inv p s r s' :
  savePicture env p s = (r, s') →
  ∃ evs, s' = log evs s ∧
    match r with
    | Ok saved => ∃ data uri,
        List.filter is_write evs = [FsWriteFile (name p) data Data] ∧
        fs_writeFile env (name p) data Data = Ok uri ∧
        saved = if isNativePlatform env
                then (JStr uri, JStr (convertFileSrc env uri))
                else (name p, tempPath p)
    | Err _ => True
    end.
Proof.
  unfold savePicture. unfold bind at 1.
  destruct (readAsBase64 env (tempPath p) s) as [[data|err] s1] eqn:Hread;
    apply readAsBase64_inv in Hread as (evs & -> & Hw).
  - unfold bind, await.
    destruct (fs_writeFile env (name p) data Data) as [uri|err] eqn:Hwrite.
    + destruct (isNativePlatform env) eqn:Hn; intros [= <- <-]; rewrite log_log;
        eexists; (split; [done|]); exists data, uri;
        rewrite List.filter_app, Hw, ?Hn; done.
    + intros [= <- <-]. rewrite log_log. by eexists.
  - intros [= <- <-]. by eexists.
Qed.

(** ** Persisting a pending capture *)

Lemma persistReceipt_inv expense expenseId e s r s' :
  heap s !! expense = Some e →
  persistReceipt env expense expenseId s = (r, s') →
  let fname := JStr (Number_toString expenseId +:+ ".jpeg") in
  ∃ evs,
    match r with
    | Ok _ => ∃ data uri,
        List.filter is_write evs = [FsWriteFile fname data Data] ∧
        fs_writeFile env fname data Data = Ok uri ∧
        s' = log evs (store expense
               (saved_receipt fname
                  (if isNativePlatform env
                   then (JStr uri, JStr (convertFileSrc env uri))
                   else (fname, tempPath (receipt e))) e) s)
    | Err _ =>
        s' = log evs (store expense (with_receipt (with_name fname) e) s)
    end.
Proof.
  intros He. unfold persistReceipt.
  unfold bind at 1, update at 1. rewrite He.
  unfold bind at 1, deref. simpl. rewrite lookup_insert_eq.
  unfold bind at 1.
  destruct (savePicture env _ _) as [[saved|err] s1] eqn:Hsave;
    apply savePicture_inv in Hsave as (evs & -> & Hsaved).
  - destruct Hsaved as (data & uri & Hw & Huri & ->).
    unfold bind, update, store, log. simpl. rewrite !lookup_insert_eq. simpl.
    rewrite !lookup_insert_eq. simpl. rewrite !lookup_insert_eq.
    intros [= <- <-]. exists evs, data, uri. split; [done|]. split; [done|].
    rewrite !insert_insert_eq. unfold saved_receipt.
    by destruct (isNativePlatform env).
  - intros [= <- <-]. by exists evs.
Qed.

(** ** Creating or updating *)

Lemma expenseId_run (e : Expense) s :
  match id e with
  | Some n => if number_truthy n then ret n else createExpenseId env
  | None => createExpenseId env
  end s = (Ok (expenseId_of env e), s).
Proof.
  unfold expenseId_of, createExpenseId, ret.
  destruct (id e) as [n|]; [destruct (number_truthy n)|]; done.
Qed.

Lemma storeExpense_new expense expenseId e s :
  heap s !! expense = Some e →
  let e' := with_id (Some expenseId) e in
  let s1 := mkState (<[expense := e']> (heap s)) (next s)
                    (expense :: expenses s) (trace s) in
  let current := (λ l, heap s1 !! l) <$> expenses s1 in
  storeExpense env expense expenseId true s =
    (storage_createExpense env (Some e') current,
     log [StorageCreateExpense (Some e') current] s1).
Proof.
  intros He. unfold storeExpense, bind, update. rewrite He. simpl.
  by rewrite !lookup_insert_eq.
Qed.

Lemma storeExpense_existing expense expenseId s :
  let current := (λ l, heap s !! l) <$> expenses s in
  storeExpense env expense expenseId false s =
    (storage_updateExpense env (heap s !! expense) current,
     log [StorageUpdateExpense (heap s !! expense) current] s).
Proof. done. Qed.

(** [createUpdateExpense] on a record without a pending capture. *)
Lemma createUpdateExpense_plain expense e s :
  heap s !! expense = Some e →
  truthy (tempPath (receipt e)) = false →
  createUpdateExpense env expense s =
    match storeExpense env expense (expenseId_of env e)
            (match id e with None => true | Some _ => false end) s with
    | (Ok _, s') => (Ok expense, s')
    | (Err err, s') => (Err err, s')
    end.
Proof.
  intros He Ht. unfold createUpdateExpense.
  unfold bind at 1, deref. rewrite He.
  unfold bind at 1. rewrite expenseId_run, Ht.
  unfold bind, ret.
  by destruct (storeExpense _ _ _ _ _) as [[[]|] ?].
Qed.

(** [createUpdateExpense] on a record with a pending capture. *)
Lemma createUpdateExpense_pending expense e s :
  heap s !! expense = Some e →
  truthy (tempPath (receipt e)) = true →
  createUpdateExpense env expense s =
    match persistReceipt env expense (expenseId_of env e) s with
    | (Ok _, s1) =>
        match storeExpense env expense (expenseId_of env e)
                (match id e with None => true | Some _ => false end) s1 with
        | (Ok _, s') => (Ok expense, s')
        | (Err err, s') => (Err err, s')
        end
    | (Err err, s1) => (Err err, s1)
    end.
Proof.
  intros He Ht. unfold createUpdateExpense.
  unfold bind at 1, deref. rewrite He.
  unfold bind at 1. rewrite expenseId_run, Ht.
  unfold bind, ret.
  destruct (persistReceipt _ _ _ _) as [[[]|] s1]; [|done].
  by destruct (storeExpense _ _ _ _ _) as [[[]|] ?].
Qed.

(** The list after [persistReceipt] is the list before it. *)
Lemma persistReceipt_expenses expense expenseId e s r s' :
  heap s !! expense = Some e →
  persistReceipt env expense expenseId s = (r, s') →
  expenses s' = expenses s.
Proof.
  intros He Hrun.
  destruct (persistReceipt_inv _ _ _ _ _ _ He Hrun) as [evs Hs'].
  destruct r; [destruct Hs' as (? & ? & _ & _ & ->)|subst s']; done.
Qed.

(** C4. Creating a new record (one whose [id] is [undefined]) puts it at
    position 0 of the in-memory list and moves every record that was in
    the list one position later, in the same order. This holds as soon as
    the pending capture, if there is one, has been saved: the list is
    updated before the Record Store is called. *)
Theorem createUpdateExpense_new_prepends expense e s :
  heap s !! expense = Some e →
  id e = None →
  (truthy (tempPath (receipt e)) = false ∨
   ∃ s1, persistReceipt env expense (getTime env) s = (Ok tt, s1)) →
  let s' := snd (createUpdateExpense env expense s) in
  expenses s' = expense :: expenses s ∧
  expenses s' !! 0 = Some expense ∧
  length (expenses s') = S (length (expenses s)) ∧
  ∀ i l, expenses s !! i = Some l → expenses s' !! S i = Some l.
Proof.
  intros He Hid Hsave.
  assert (expenses (snd (createUpdateExpense env expense s))
          = expense :: expenses s) as Hlist.
  { destruct (truthy (tempPath (receipt e))) eqn:Ht.
    - destruct Hsave as [|[s1 Hp]]; [done|].
      rewrite (createUpdateExpense_pending _ _ _ He Ht).
      unfold expenseId_of. rewrite Hid, Hp.
      destruct (persistReceipt_inv _ _ _ _ _ _ He Hp)
        as (evs & data & uri & _ & _ & Hs1).
      pose proof (persistReceipt_expenses _ _ _ _ _ _ He Hp) as Hexp.
      erewrite storeExpense_new; [|subst s1; apply lookup_insert_eq].
      destruct (storage_createExpense _ _ _); simpl; by rewrite Hexp.
    - rewrite (createUpdateExpense_plain _ _ _ He Ht).
      unfold expenseId_of. rewrite Hid.
      rewrite (storeExpense_new _ _ _ _ He).
      by destruct (storage_createExpense _ _ _). }
  simpl. rewrite Hlist. repeat split; done.
Qed.

(** What a completed [createUpdateExpense] leaves behind for a record with
    a pending capture: the record, the calls issued, and the list. *)
Lemma createUpdateExpense_pending_ok expense e s r s' :
  heap s !! expense = Some e →
  truthy (tempPath (receipt e)) = true →
  createUpdateExpense env expense s = (Ok r, s') →
  let fname := JStr (Number_toString (expenseId_of env e) +:+ ".jpeg") in
  ∃ evs data uri ev,
    r = expense ∧
    List.filter is_write evs = [FsWriteFile fname data Data] ∧
    fs_writeFile env fname data Data = Ok uri ∧
    let e1 := saved_receipt fname
                (if isNativePlatform env
                 then (JStr uri, JStr (convertFileSrc env uri))
                 else (fname, tempPath (receipt e))) e in
    trace s' = trace s ++ evs ++ [ev] ∧
    match id e with
    | None =>
        heap s' = <[expense := with_id (Some (getTime env)) e1]> (heap s) ∧
        expenses s' = expense :: expenses s ∧
        ∃ arg current, ev = StorageCreateExpense arg current
    | Some _ =>
        heap s' = <[expense := e1]> (heap s) ∧
        expenses s' = expenses s ∧
        ∃ arg current, ev = StorageUpdateExpense arg current
    end.
Proof.
  intros He Ht. rewrite (createUpdateExpense_pending _ _ _ He Ht).
  destruct (persistReceipt _ _ _ _) as [[[]|err] s1] eqn:Hp; [|done].
  destruct (persistReceipt_inv _ _ _ _ _ _ He Hp)
    as (evs & data & uri & Hw & Huri & ->).
  destruct (id e) as [n|] eqn:Hid.
  - rewrite storeExpense_existing.
    destruct (storage_updateExpense _ _ _) as [[]|]; [|done].
    intros [= <- <-]. simpl. exists evs, data, uri. eexists.
    repeat split; try done.
    + by rewrite <- app_assoc.
    + eauto.
  - erewrite storeExpense_new; [|apply lookup_insert_eq].
    destruct (storage_createExpense _ _ _) as [[]|]; [|done].
    intros [= <- <-]. simpl. exists evs, data, uri. eexists.
    repeat split; try done.
    + by rewrite <- app_assoc.
    + unfold expenseId_of. rewrite Hid. by rewrite insert_insert_eq.
    + eauto.
Qed.

(** What a completed [createUpdateExpense] does for a record with a pending
    capture: the persisted and the display reference are set, the pending
    capture reference is [null], and exactly one write is issued, under the
    file name made of [expense.id || this.createExpenseId()] followed by
    ".jpeg". That identifier is the record's identifier after the operation
    unless the record came with identifier 0. *)
Lemma createUpdateExpense_saves_pending_capture expense e s r s' :
  heap s !! expense = Some e →
  truthy (tempPath (receipt e)) = true →
  createUpdateExpense env expense s = (Ok r, s') →
  let fname := JStr (Number_toString (expenseId_of env e) +:+ ".jpeg") in
  r = expense ∧
  ∃ e' evs data,
    heap s' !! expense = Some e' ∧
    is_set (filePath (receipt e')) ∧
    is_set (webviewPath (receipt e')) ∧
    tempPath (receipt e') = JNull ∧
    name (receipt e') = fname ∧
    trace s' = trace s ++ evs ∧
    List.filter is_write evs = [FsWriteFile fname data Data] ∧
    (id e ≠ Some 0%Z → id e' = Some (expenseId_of env e)).
Proof.
  intros He Ht Hrun.
  destruct (createUpdateExpense_pending_ok _ _ _ _ _ He Ht Hrun)
    as (evs & data & uri & ev & -> & Hw & Huri & Htr & Hcase).
  split; [done|].
  assert (is_set (if isNativePlatform env
                  then (JStr uri, JStr (convertFileSrc env uri))
                  else (JStr (Number_toString (expenseId_of env e) +:+ ".jpeg"),
                        tempPath (receipt e))).1) as Hfp.
  { destruct (isNativePlatform env); simpl; by eexists. }
  assert (is_set (if isNativePlatform env
                  then (JStr uri, JStr (convertFileSrc env uri))
                  else (JStr (Number_toString (expenseId_of env e) +:+ ".jpeg"),
                        tempPath (receipt e))).2) as Hwv.
  { destruct (isNativePlatform env); simpl; [by eexists|by apply truthy_is_set]. }
  assert (List.filter is_write (evs ++ [ev])
          = [FsWriteFile (JStr (Number_toString (expenseId_of env e) +:+ ".jpeg"))
               data Data]) as Hw'.
  { rewrite List.filter_app, Hw.
    destruct (id e); destruct Hcase as (_ & _ & ? & ? & ->); done. }
  destruct (id e) as [n|] eqn:Hid.
  - destruct Hcase as (Hheap & _ & _).
    eexists _, (evs ++ [ev]), data. rewrite Hheap, lookup_insert_eq.
    repeat split; try done.
    intros Hn. unfold expenseId_of. rewrite Hid. simpl. rewrite Hid.
    unfold number_truthy.
    destruct (Z.eqb_spec n 0) as [->|]; done.
  - destruct Hcase as (Hheap & _ & _).
    eexists _, (evs ++ [ev]), data. rewrite Hheap, lookup_insert_eq.
    repeat split; try done.
    intros _. unfold expenseId_of. by rewrite Hid.
Qed.

(** C10. A record whose identifier is 0 and which carries a pending
    capture is treated as an existing record (the Record Store is asked to
    update it, the list is left alone, and its identifier stays 0), but
    the receipt is named after a freshly generated timestamp: the file
    name is not the one the record's own identifier would give, unless the
    clock itself reads 0. *)
Theorem createUpdateExpense_zero_id_uses_timestamp expense e s r s' :
  heap s !! expense = Some e →
  id e = Some 0%Z →
  truthy (tempPath (receipt e)) = true →
  createUpdateExpense env expense s = (Ok r, s') →
  let fname := JStr (Number_toString (getTime env) +:+ ".jpeg") in
  ∃ e' evs data arg current,
    heap s' !! expense = Some e' ∧
    id e' = Some 0%Z ∧
    expenses s' = expenses s ∧
    trace s' = trace s ++ evs ++ [StorageUpdateExpense arg current] ∧
    List.filter is_write evs = [FsWriteFile fname data Data] ∧
    name (receipt e') = fname ∧
    (getTime env ≠ 0%Z →
     name (receipt e') ≠ JStr (Number_toString 0 +:+ ".jpeg")).
Proof.
  intros He Hid Ht Hrun.
  destruct (createUpdateExpense_pending_ok _ _ _ _ _ He Ht Hrun)
    as (evs & data & uri & ev & -> & Hw & Huri & Htr & Hcase).
  assert (expenseId_of env e = getTime env) as Heid.
  { unfold expenseId_of. by rewrite Hid. }
  rewrite Heid in *. rewrite Hid in Hcase.
  destruct Hcase as (Hheap & Hexp & arg & current & ->).
  eexists _, evs, data, arg, current.
  rewrite Hheap, lookup_insert_eq.
  repeat split; try done.
  simpl. intros Hne [= Heq%string_app_inj_r].
  unfold Number_toString in Heq.
  change (pretty (getTime env) = pretty 0%Z) in Heq.
  by apply (inj pretty) in Heq.
Qed.

(** C3. [savePicture] on a native platform returns, as persisted
    reference, the URI the Filesystem's write returned and, as display
    reference, [convertFileSrc] of that URI; on the browser it returns the
    target file name (the receipt's [name], which [createUpdateExpense]
    sets to "<id>.jpeg") as persisted reference and the temporary capture
    path, unchanged, as display reference. It returns them whenever the
    capture can be read and the write succeeds, and returns nothing
    else. *)
Theorem savePicture_references p s :
  (isNativePlatform env = true →
   ∀ data uri,
     fs_readFile env (tempPath p) None = Ok data →
     fs_writeFile env (name p) data Data = Ok uri →
     savePicture env p s =
       (Ok (JStr uri, JStr (convertFileSrc env uri)),
        log [FsReadFile (tempPath p) None; FsWriteFile (name p) data Data] s)) ∧
  (isNativePlatform env = false →
   ∀ response blob data uri,
     fetch env (tempPath p) = Ok response →
     response_blob env response = Ok blob →
     readAsDataURL env blob = Ok data →
     fs_writeFile env (name p) data Data = Ok uri →
     savePicture env p s =
       (Ok (name p, tempPath p),
        log [Fetch (tempPath p); ResponseBlob response; ReadAsDataURL blob;
             FsWriteFile (name p) data Data] s)) ∧
  (∀ saved s', savePicture env p s = (Ok saved, s') →
     ∃ data uri,
       fs_writeFile env (name p) data Data = Ok uri ∧
       (isNativePlatform env = true →
        saved = (JStr uri, JStr (convertFileSrc env uri))) ∧
       (isNativePlatform env = false → saved = (name p, tempPath p))).
Proof.
  split; [|split].
  - intros Hn data uri Hread Hwrite.
    unfold savePicture, readAsBase64, bind, await.
    rewrite Hn, Hread, Hwrite. unfold ret. by rewrite log_log.
  - intros Hn response blob data uri Hfetch Hblob Hdata Hwrite.
    unfold savePicture, readAsBase64, convertBlobToBase64, bind, await.
    rewrite Hn, Hfetch, Hblob, Hdata, Hwrite. unfold ret.
    by rewrite !log_log.
  - intros saved s' Hrun.
    apply savePicture_inv in Hrun as (evs & _ & data & uri & _ & Hwrite & ->).
    exists data, uri. split; [done|].
    split; intros ->; done.
Qed.

(** ** Removing *)

Lemma splice1_valid {A} (p : Z) (l : list A) :
  (0 ≤ p < Z.of_nat (length l))%Z →
  splice1 p l = take (Z.to_nat p) l ++ drop (S (Z.to_nat p)) l.
Proof.
  intros Hp. unfold splice1.
  destruct (Z.ltb_spec p 0) as [?|_]; [lia|].
  rewrite Z.min_l by lia. rewrite Z.min_l by lia.
  do 2 f_equal. lia.
Qed.

(** [removeExpense], step by step: the list is spliced first, then the
    Record Store is called with the spliced list, then the file is
    deleted if the receipt has a name. *)
Lemma removeExpense_run expense p s :
  let s1 := mkState (heap s) (next s) (splice1 p (expenses s)) (trace s) in
  let arg := heap s !! expense in
  let current := (λ l, heap s !! l) <$> splice1 p (expenses s) in
  removeExpense env expense p s =
    match storage_deleteExpense env arg current with
    | Err err => (Err err, log [StorageDeleteExpense arg current] s1)
    | Ok _ =>
        match arg with
        | None => (Err TypeError, log [StorageDeleteExpense arg current] s1)
        | Some e =>
            if truthy (name (receipt e)) then
              (fs_deleteFile env (name (receipt e)) Data,
               log [StorageDeleteExpense arg current;
                    FsDeleteFile (name (receipt e)) Data] s1)
            else (Ok tt, log [StorageDeleteExpense arg current] s1)
        end
    end.
Proof.
  unfold removeExpense, bind, get_expenses, set_expenses, peek, snapshot,
    await, deref. simpl.
  destruct (storage_deleteExpense _ _ _) as [[]|err]; [|done].
  destruct (heap s !! expense) as [e|]; [|done].
  destruct (truthy (name (receipt e))); [|done].
  by rewrite log_log.
Qed.

Lemma removeExpense_expenses expense p s :
  expenses (snd (removeExpense env expense p s)) = splice1 p (expenses s).
Proof.
  rewrite removeExpense_run.
  destruct (storage_deleteExpense _ _ _) as [[]|err]; [|done].
  destruct (heap s !! expense) as [e|]; [|done].
  by destruct (truthy (name (receipt e))).
Qed.

(** C5. At a valid position [p], [removeExpense] makes the in-memory list
    one shorter: the record that was at [p] is gone and the others keep
    their order (those before [p] stay in place, those after it move one
    position earlier), whatever the collaborators answer. *)
Theorem removeExpense_removes_position expense (p : Z) s :
  (0 ≤ p < Z.of_nat (length (expenses s)))%Z →
  let s' := snd (removeExpense env expense p s) in
  S (length (expenses s')) = length (expenses s) ∧
  expenses s' =
    take (Z.to_nat p) (expenses s) ++ drop (S (Z.to_nat p)) (expenses s) ∧
  (∀ i, i < Z.to_nat p → expenses s' !! i = expenses s !! i) ∧
  (∀ i, Z.to_nat p ≤ i → expenses s' !! i = expenses s !! S i).
Proof.
  intros Hp. simpl. rewrite removeExpense_expenses, (splice1_valid _ _ Hp).
  set (n := Z.to_nat p). assert (n < length (expenses s)) as Hn by lia.
  split; [|split; [done|split]].
  - rewrite length_app, length_take, length_drop. lia.
  - intros i Hi. rewrite lookup_app_l by (rewrite length_take; lia).
    by rewrite lookup_take_lt.
  - intros i Hi. rewrite lookup_app_r by (rewrite length_take; lia).
    rewrite length_take, lookup_drop. f_equal. lia.
Qed.

(** C6. Removing a record whose receipt has a stored file name issues,
    once the Record Store has deleted the record, exactly one delete call
    to the Filesystem, for that file name in the data directory; removing
    a record whose receipt has no stored file name issues none. *)
Theorem removeExpense_file_delete expense e p s :
  heap s !! expense = Some e →
  let s' := snd (removeExpense env expense p s) in
  let current := (λ l, heap s !! l) <$> splice1 p (expenses s) in
  ∃ evs,
    trace s' = trace s ++ evs ∧
    (truthy (name (receipt e)) = true →
     storage_deleteExpense env (Some e) current = Ok tt →
     List.filter is_delete evs = [FsDeleteFile (name (receipt e)) Data]) ∧
    (truthy (name (receipt e)) = false →
     List.filter is_delete evs = []).
Proof.
  intros He. simpl. rewrite removeExpense_run, He.
  destruct (storage_deleteExpense _ _ _) as [[]|err].
  - destruct (truthy (name (receipt e))); eexists; (split; [done|]);
      split; done.
  - eexists. split; [done|]. split; done.
Qed.

(** C9. [removeExpense] is not atomic. The in-memory list is changed
    first; if the Record Store then rejects the deletion, or if it accepts
    it and the Filesystem rejects the file deletion, the rejection reaches
    the caller as it is and the record stays removed from the in-memory
    list: nothing is rolled back. *)
Theorem removeExpense_not_atomic expense e (p : Z) s err :
  heap s !! expense = Some e →
  (0 ≤ p < Z.of_nat (length (expenses s)))%Z →
  let spliced :=
    take (Z.to_nat p) (expenses s) ++ drop (S (Z.to_nat p)) (expenses s) in
  let s1 := mkState (heap s) (next s) spliced (trace s) in
  let current := (λ l, heap s !! l) <$> spliced in
  (storage_deleteExpense env (Some e) current = Err err →
   removeExpense env expense p s =
     (Err err, log [StorageDeleteExpense (Some e) current] s1)) ∧
  (storage_deleteExpense env (Some e) current = Ok tt →
   truthy (name (receipt e)) = true →
   fs_deleteFile env (name (receipt e)) Data = Err err →
   removeExpense env expense p s =
     (Err err, log [StorageDeleteExpense (Some e) current;
                    FsDeleteFile (name (receipt e)) Data] s1)) ∧
  length spliced < length (expenses s).
Proof.
  intros He Hp. simpl.
  rewrite removeExpense_run, He, (splice1_valid _ _ Hp).
  split; [|split].
  - by intros ->.
  - by intros -> -> ->.
  - rewrite length_app, length_take, length_drop. lia.
Qed.

(** ** Looking up *)

Lemma strict_eq_true (a : option Z) (b : Z) :
  strict_eq a b = true ↔ a = Some b.
Proof.
  destruct a as [x|]; simpl; [|done].
  rewrite Z.eqb_eq. split; [by intros ->|by intros [= ->]].
Qed.

Lemma find_id_spec id0 ls s :
  (∀ l, l ∈ ls → is_Some (heap s !! l)) →
  ∃ r, find_id id0 ls s = (Ok r, s) ∧
    match r with
    | Some l => l ∈ ls ∧ ∃ e, heap s !! l = Some e ∧ id e = Some id0
    | None => ∀ l e, l ∈ ls → heap s !! l = Some e → id e ≠ Some id0
    end.
Proof.
  induction ls as [|l ls IH]; intros Hwf.
  - exists None. split; [done|]. intros l e Hl. by apply elem_of_nil in Hl.
  - destruct (Hwf l) as [e He]; [apply list_elem_of_here|].
    simpl. unfold bind at 1, deref. rewrite He.
    destruct (strict_eq (id e) id0) eqn:Heq.
    + exists (Some l). split; [done|]. split; [apply list_elem_of_here|].
      exists e. split; [done|]. by apply strict_eq_true.
    + destruct IH as (r & Hrun & Hr).
      { intros l' Hl'. apply Hwf. by apply list_elem_of_further. }
      exists r. split; [done|]. destruct r as [l'|].
      * destruct Hr as [Hin Hr]. split; [by apply list_elem_of_further|done].
      * intros l' e' [->|Hin]%elem_of_cons He'.
        -- rewrite He in He'. injection He' as <-.
           intros Hid%strict_eq_true. congruence.
        -- by eapply Hr.
Qed.

(** C7. [getExpense] returns a record of the in-memory list that has the
    identifier asked for when there is one (the record with that
    identifier when it is the only one), and [undefined] exactly when no
    record of the list has it; it never returns a record that has another
    identifier. The service state is left as it was. *)
Theorem getExpense_lookup id0 s :
  list_wf s →
  ∃ r, getExpense id0 s = (Ok r, s) ∧
    (∀ l, r = Some l →
       l ∈ expenses s ∧ ∃ e, heap s !! l = Some e ∧ id e = Some id0) ∧
    (r = None ↔
       ∀ l e, l ∈ expenses s → heap s !! l = Some e → id e ≠ Some id0) ∧
    (∀ l e, heap s !! l = Some e → id e ≠ Some id0 → r ≠ Some l) ∧
    (∀ l e, l ∈ expenses s → heap s !! l = Some e → id e = Some id0 →
       (∀ l' e', l' ∈ expenses s → heap s !! l' = Some e' →
                 id e' = Some id0 → l' = l) →
       r = Some l).
Proof.
  intros Hwf. destruct (find_id_spec id0 (expenses s) s Hwf) as (r & Hrun & Hr).
  exists r. split; [done|]. split; [|split; [|split]].
  - intros l ->. done.
  - destruct r as [l|].
    + split; [done|]. intros Hnone. destruct Hr as (Hin & e & He & Hid).
      by destruct (Hnone l e).
    + done.
  - intros l e He Hid ->. destruct Hr as (_ & e' & He' & Hid'). congruence.
  - intros l e Hin He Hid Huniq. destruct r as [l'|].
    + destruct Hr as (Hin' & e' & He' & Hid'). f_equal. by eapply Huniq.
    + by destruct (Hr l e).
Qed.

(** ** Loading *)

Lemma alloc_all_run es : ∀ s,
  ∃ s', alloc_all es s = (Ok (seq (next s) (length es)), s') ∧
    next s' = next s + length es ∧
    expenses s' = expenses s ∧
    trace s' = trace s ∧
    (∀ i e, es !! i = Some e → heap s' !! (next s + i) = Some e) ∧
    (∀ l, l < next s → heap s' !! l = heap s !! l).
Proof.
  induction es as [|e es IH]; intros s.
  - exists s. simpl. unfold ret. split; [done|]. split; [lia|]. done.
  - simpl. unfold bind at 1, alloc.
    destruct (IH (mkState (<[next s := e]> (heap s)) (S (next s))
                          (expenses s) (trace s)))
      as (s' & Hrun & Hnext & Hexp & Htr & Hnew & Hold).
    simpl in *. exists s'. unfold bind, ret. rewrite Hrun.
    split; [done|]. split; [lia|]. split; [done|]. split; [done|]. split.
    + intros [|i] e' Hi; simpl in Hi.
      * injection Hi as <-. rewrite Nat.add_0_r, Hold by lia.
        apply lookup_insert_eq.
      * replace (next s + S i) with (S (next s + i)) by lia. by apply Hnew.
    + intros l Hl. rewrite Hold by lia. apply lookup_insert_ne. lia.
Qed.

Lemma loadSaved_step_run expense e s :
  heap s !! expense = Some e →
  (truthy (filePath (receipt e)) = true →
   ∃ data, fs_readFile env (filePath (receipt e)) (Some Data) = Ok data) →
  ∃ evs, loadSaved_step env expense s =
           (Ok tt, log evs (store expense (inline_receipt env e) s)).
Proof.
  intros He Hread. unfold loadSaved_step, inline_receipt, bind, deref.
  rewrite He. destruct (truthy (filePath (receipt e))).
  - destruct Hread as [data Hdata]; [done|]. unfold await. rewrite Hdata.
    unfold update. simpl. rewrite He. by eexists.
  - exists []. unfold ret, store. rewrite log_nil, insert_id by done.
    by destruct s.
Qed.

Lemma loadSaved_loop_run ls : ∀ s,
  NoDup ls →
  (∀ l, l ∈ ls → ∃ e, heap s !! l = Some e ∧
     (truthy (filePath (receipt e)) = true →
      ∃ data, fs_readFile env (filePath (receipt e)) (Some Data) = Ok data)) →
  ∃ s', loadSaved_loop env ls s = (Ok tt, s') ∧
    expenses s' = expenses s ∧
    (∀ l e, l ∈ ls → heap s !! l = Some e →
            heap s' !! l = Some (inline_receipt env e)) ∧
    (∀ l, l ∉ ls → heap s' !! l = heap s !! l).
Proof.
  induction ls as [|l ls IH]; intros s Hnd Hok.
  - exists s. split; [done|]. split; [done|]. split; [|done].
    intros l e Hl. by apply elem_of_nil in Hl.
  - apply NoDup_cons in Hnd as [Hl Hnd].
    destruct (Hok l) as (e & He & Hread); [apply list_elem_of_here|].
    destruct (loadSaved_step_run l e s He Hread) as [evs Hstep].
    destruct (IH (log evs (store l (inline_receipt env e) s)) Hnd)
      as (s' & Hrun & Hexp & Hin & Hout).
    { intros l' Hl'. destruct (Hok l') as (e' & He' & Hread');
        [by apply list_elem_of_further|].
      exists e'. split; [|done]. simpl. rewrite lookup_insert_ne; [done|].
      intros ->. done. }
    exists s'. simpl. unfold bind. rewrite Hstep, Hrun.
    split; [done|]. split; [done|]. split.
    + intros l' e' [->|Hl']%elem_of_cons He'.
      * rewrite Hout by done. simpl. rewrite lookup_insert_eq. congruence.
      * apply Hin; [done|]. simpl. rewrite lookup_insert_ne; [done|].
        intros ->. done.
    + intros l' [Hne Hl']%not_elem_of_cons. rewrite Hout by done.
      simpl. by rewrite lookup_insert_ne.
Qed.

(** C2. Once the Record Store has handed over its records, [loadSaved]
    makes them the in-memory list and returns that list, in the store's
    order. On the web platform every loaded record with a persisted
    receipt path gets, as display reference, the data URL
    "data:image/jpeg;base64," followed by what the Filesystem read
    returned for that path (the other loaded records are untouched); on
    any other platform the loaded records, display reference included,
    are as the store returned them. *)
Theorem loadSaved_display_references stored s :
  storage_init env = Ok tt →
  storage_readExpenses env = Ok stored →
  (getPlatform env = "web" →
   ∀ e, e ∈ stored → truthy (filePath (receipt e)) = true →
        ∃ data, fs_readFile env (filePath (receipt e)) (Some Data) = Ok data) →
  ∃ ls s',
    loadSaved env s = (Ok ls, s') ∧
    expenses s' = ls ∧
    length ls = length stored ∧
    ∀ i e, stored !! i = Some e →
      ∃ l e', ls !! i = Some l ∧ heap s' !! l = Some e' ∧
        (getPlatform env = "web" →
         if truthy (filePath (receipt e)) then
           ∃ data,
             fs_readFile env (filePath (receipt e)) (Some Data) = Ok data ∧
             e' = with_receipt
                    (with_webviewPath (JStr ("data:image/jpeg;base64," +:+ data))) e
         else e' = e) ∧
        (getPlatform env ≠ "web" → e' = e).
Proof.
  intros Hinit Hstored Hreads.
  unfold loadSaved. unfold bind at 1, await. rewrite Hinit.
  unfold bind at 1. rewrite Hstored. unfold bind at 1.
  destruct (alloc_all_run stored (log [StorageReadExpenses] (log [StorageInit] s)))
    as (s1 & Halloc & Hnext & Hexp & Htr & Hnew & Hold).
  rewrite Halloc. simpl in Hnew, Hold, Hnext.
  set (ls := seq (next s) (length stored)).
  unfold bind at 1, set_expenses. unfold bind at 1.
  assert (∀ i e, stored !! i = Some e → ls !! i = Some (next s + i)) as Hls.
  { intros i e Hi. apply lookup_seq. split; [done|]. by eapply lookup_lt_Some. }
  destruct (String.eqb_spec (getPlatform env) "web") as [Hweb|Hweb].
  - unfold bind at 1, get_expenses. simpl.
    destruct (loadSaved_loop_run ls
                (mkState (heap s1) (next s1) ls (trace s1)))
      as (s' & Hrun & Hexp' & Hin & Hout).
    { apply NoDup_seq. }
    { intros l Hl%elem_of_seq.
      destruct (lookup_lt_is_Some_2 stored (l - next s)) as [e He]; [lia|].
      exists e. simpl. split.
      { replace l with (next s + (l - next s)) by lia. by apply Hnew. }
      apply (Hreads Hweb). by eapply list_elem_of_lookup_2. }
    fold ls. rewrite Hrun. simpl in Hexp'.
    exists ls, s'. unfold get_expenses. rewrite Hexp'.
    split; [done|]. split; [done|]. split; [apply length_seq|].
    intros i e Hi. exists (next s + i), (inline_receipt env e).
    split; [by eapply Hls|]. split.
    + apply Hin; [|by apply Hnew].
      apply elem_of_seq. apply lookup_lt_Some in Hi. lia.
    + split; [|done]. intros _. unfold inline_receipt.
      destruct (truthy (filePath (receipt e))) eqn:Ht; [|done].
      destruct (Hreads Hweb e) as [data Hdata];
        [by eapply list_elem_of_lookup_2|done|].
      rewrite Hdata. by exists data.
  - unfold ret, get_expenses. simpl. exists ls. eexists.
    split; [done|]. split; [done|]. split; [apply length_seq|].
    intros i e Hi. exists (next s + i), e.
    split; [by eapply Hls|]. split; [by apply Hnew|]. done.
Qed.

(** ** The receipt invariant *)

Lemma heap_inv_store l e s :
  receipt_inv (receipt e) → heap_inv s → heap_inv (store l e s).
Proof.
  intros He Hs l' e'. simpl. destruct (decide (l = l')) as [->|Hne].
  - rewrite lookup_insert_eq. by intros [= <-].
  - rewrite lookup_insert_ne by done. apply Hs.
Qed.

Lemma preserves_ret {A} (a : A) : preserves (ret a).
Proof. by intros s. Qed.

Lemma preserves_bind {A B} (m : M A) (k : A → M B) :
  preserves m → (∀ a, preserves (k a)) → preserves (bind m k).
Proof.
  intros Hm Hk s Hs. unfold bind. specialize (Hm s Hs).
  destruct (m s) as [[a|err] s1]; [by apply Hk|done].
Qed.

Lemma preserves_await {A} ev (r : result A) : preserves (await ev r).
Proof. by intros s. Qed.

Lemma preserves_deref l : preserves (deref l).
Proof. intros s Hs. unfold deref. by destruct (heap s !! l). Qed.

Lemma preserves_update l f :
  (∀ e, receipt_inv (receipt e) → receipt_inv (receipt (f e))) →
  preserves (update l f).
Proof.
  intros Hf s Hs. unfold update. destruct (heap s !! l) as [e|] eqn:He; [|done].
  apply heap_inv_store; [|done]. apply Hf. by eapply Hs.
Qed.

Lemma preserves_alloc_all es :
  Forall (λ e, receipt_inv (receipt e)) es → preserves (alloc_all es).
Proof.
  induction 1 as [|e es He _ IH]; [apply preserves_ret|].
  simpl. apply preserves_bind.
  - intros s Hs. by apply (heap_inv_store (next s) e s).
  - intros l. apply preserves_bind; [done|]. intros ls. apply preserves_ret.
Qed.

Lemma preserves_loadSaved_loop ls : preserves (loadSaved_loop env ls).
Proof.
  induction ls as [|l ls IH]; [apply preserves_ret|].
  simpl. apply preserves_bind; [|done].
  unfold loadSaved_step. apply preserves_bind; [apply preserves_deref|].
  intros e. destruct (truthy (filePath (receipt e))); [|apply preserves_ret].
  apply preserves_bind; [apply preserves_await|].
  intros data. by apply preserves_update.
Qed.

Lemma preserves_loadSaved :
  (∀ stored, storage_readExpenses env = Ok stored →
             Forall (λ e, receipt_inv (receipt e)) stored) →
  preserves (loadSaved env).
Proof.
  intros Hstore. unfold loadSaved.
  apply preserves_bind; [apply preserves_await|]. intros _.
  intros s Hs. unfold bind at 1, await.
  destruct (storage_readExpenses env) as [stored|err] eqn:Hstored; [|done].
  revert Hs. change (heap_inv s) with (heap_inv (log [StorageReadExpenses] s)).
  generalize (log [StorageReadExpenses] s). clear s.
  apply preserves_bind; [by apply preserves_alloc_all, Hstore|]. intros ls.
  apply preserves_bind; [by intros s|]. intros _.
  apply preserves_bind; [|by intros _ s].
  destruct (String.eqb _ _); [|apply preserves_ret].
  apply preserves_bind; [by intros s|]. intros ls'.
  apply preserves_loadSaved_loop.
Qed.

Lemma preserves_find_id id0 ls : preserves (find_id id0 ls).
Proof.
  induction ls as [|l ls IH]; [apply preserves_ret|].
  simpl. apply preserves_bind; [apply preserves_deref|].
  intros e. destruct (strict_eq (id e) id0); [apply preserves_ret|done].
Qed.

Lemma preserves_getExpense id0 : preserves (getExpense id0).
Proof.
  apply preserves_bind; [by intros s|]. intros ls. apply preserves_find_id.
Qed.

Lemma preserves_captureExpenseReceipt : preserves (captureExpenseReceipt env).
Proof.
  apply preserves_bind; [apply preserves_await|]. intros imageData.
  apply preserves_ret.
Qed.

Lemma preserves_removeExpense expense p : preserves (removeExpense env expense p).
Proof.
  intros s Hs. rewrite removeExpense_run.
  destruct (storage_deleteExpense _ _ _) as [[]|err]; [|done].
  destruct (heap s !! expense) as [e|]; [|done].
  by destruct (truthy (name (receipt e))).
Qed.

Lemma preserves_storeExpense expense expenseId isNewExpense :
  preserves (storeExpense env expense expenseId isNewExpense).
Proof.
  destruct isNewExpense; simpl.
  - apply preserves_bind; [by apply preserves_update|]. intros _.
    apply preserves_bind; [by intros s|]. intros ls.
    apply preserves_bind; [by intros s|]. intros _.
    apply preserves_bind; [by intros s|]. intros arg.
    apply preserves_bind; [by intros s|]. intros current.
    apply preserves_await.
  - apply preserves_bind; [by intros s|]. intros arg.
    apply preserves_bind; [by intros s|]. intros current.
    apply preserves_await.
Qed.

Lemma preserves_persistReceipt expense expenseId :
  preserves (persistReceipt env expense expenseId).
Proof.
  intros s Hs. destruct (heap s !! expense) as [e|] eqn:He.
  - destruct (persistReceipt env expense expenseId s) as [r s'] eqn:Hrun.
    destruct (persistReceipt_inv _ _ _ _ _ _ He Hrun) as [evs Hs'].
    destruct r as [[]|err].
    + destruct Hs' as (data & uri & _ & _ & ->).
      apply (heap_inv_store expense _ s); [|done]. simpl. intros [Hnull _].
      done.
    + subst s'. apply (heap_inv_store expense _ s); [|done].
      exact (Hs expense e He).
  - unfold persistReceipt, bind, update. by rewrite He.
Qed.

Lemma preserves_createUpdateExpense expense :
  preserves (createUpdateExpense env expense).
Proof.
  unfold createUpdateExpense.
  apply preserves_bind; [apply preserves_deref|]. intros e.
  apply preserves_bind.
  { intros s Hs. by rewrite expenseId_run. }
  intros expenseId. apply preserves_bind.
  { destruct (truthy _); [apply preserves_persistReceipt|apply preserves_ret]. }
  intros _. apply preserves_bind; [apply preserves_storeExpense|].
  intros _. apply preserves_ret.
Qed.

(** After a completed [createUpdateExpense] the record has no pending
    capture left. *)
Lemma createUpdateExpense_no_pending_left expense s r s' :
  createUpdateExpense env expense s = (Ok r, s') →
  ∃ e', heap s' !! expense = Some e' ∧ truthy (tempPath (receipt e')) = false.
Proof.
  destruct (heap s !! expense) as [e|] eqn:He; last first.
  { unfold createUpdateExpense, bind, deref. by rewrite He. }
  destruct (truthy (tempPath (receipt e))) eqn:Ht.
  - intros Hrun.
    destruct (createUpdateExpense_pending_ok _ _ _ _ _ He Ht Hrun)
      as (evs & data & uri & ev & _ & _ & _ & _ & Hcase).
    destruct (id e); destruct Hcase as (-> & _); rewrite lookup_insert_eq;
      by eexists.
  - rewrite (createUpdateExpense_plain _ _ _ He Ht).
    destruct (id e) as [n|].
    + rewrite storeExpense_existing.
      destruct (storage_updateExpense _ _ _) as [[]|]; [|done].
      intros [= <- <-]. exists e. by split.
    + rewrite (storeExpense_new _ _ _ _ He).
      destruct (storage_createExpense _ _ _) as [[]|]; [|done].
      intros [= <- <-]. simpl. rewrite lookup_insert_eq. by eexists.
Qed.

(** C8. Every operation of the service keeps the receipt invariant (a
    receipt does not have both its temporary and its persisted reference
    active), however the operation ends, provided the Record Store only
    returns records that satisfy it. [createUpdateExpense] persists a
    pending capture in one step: the persisted reference is set and the
    temporary reference is nulled with no collaborator call in between, so
    a record with a pending capture comes out of a completed operation
    with the persisted reference set and the temporary one [null], and no
    record comes out of it with a pending capture. *)
Theorem receipt_invariant_preserved s :
  heap_inv s →
  (∀ stored, storage_readExpenses env = Ok stored →
             Forall (λ e, receipt_inv (receipt e)) stored) →
  heap_inv (snd (loadSaved env s)) ∧
  (∀ id0, heap_inv (snd (getExpense id0 s))) ∧
  heap_inv (snd (captureExpenseReceipt env s)) ∧
  (∀ expense, heap_inv (snd (createUpdateExpense env expense s))) ∧
  (∀ expense p, heap_inv (snd (removeExpense env expense p s))) ∧
  (∀ expense e r s',
     heap s !! expense = Some e →
     truthy (tempPath (receipt e)) = true →
     createUpdateExpense env expense s = (Ok r, s') →
     ∃ e', heap s' !! expense = Some e' ∧
           tempPath (receipt e') = JNull ∧
           is_set (filePath (receipt e'))) ∧
  (∀ expense r s',
     createUpdateExpense env expense s = (Ok r, s') →
     ∃ e', heap s' !! expense = Some e' ∧
           truthy (tempPath (receipt e')) = false).
Proof.
  intros Hs Hstore. repeat split.
  - by apply preserves_loadSaved.
  - intros id0. by apply preserves_getExpense.
  - by apply preserves_captureExpenseReceipt.
  - intros expense. by apply preserves_createUpdateExpense.
  - intros expense p. by apply preserves_removeExpense.
  - intros expense e r s' He Ht Hrun.
    destruct (createUpdateExpense_pending_ok _ _ _ _ _ He Ht Hrun)
      as (evs & data & uri & ev & _ & _ & _ & _ & Hcase).
    destruct (id e); destruct Hcase as (-> & _); rewrite lookup_insert_eq;
      eexists; (split; [done|]); (split; [done|]); simpl;
      destruct (isNativePlatform env); by eexists.
  - intros expense r s'. apply createUpdateExpense_no_pending_left.
Qed.

(** ** Further properties of creating and updating *)

(** Every way [createUpdateExpense] can end, seen from the state: only the
    record it was given is written, the log only grows, and the list is
    either left alone or gets the new record in front. *)
Lemma createUpdateExpense_outcome expense e s :
  heap s !! expense = Some e →
  ∃ e' evs,
    let s' := snd (createUpdateExpense env expense s) in
    heap s' = <[expense := e']> (heap s) ∧
    next s' = next s ∧
    trace s' = trace s ++ evs ∧
    details e' = details e ∧
    ((expenses s' = expenses s ∧ id e' = id e) ∨
     (id e = None ∧ expenses s' = expense :: expenses s ∧
      id e' = Some (getTime env))).
Proof.
  intros He.
  assert (∀ e1 evs1 s1,
    heap s1 !! expense = Some e1 → id e1 = id e → details e1 = details e →
    heap s1 = <[expense := e1]> (heap s) → next s1 = next s →
    expenses s1 = expenses s → trace s1 = trace s ++ evs1 →
    ∃ e' evs,
      let s' := snd (match storeExpense env expense (expenseId_of env e)
                             (match id e with None => true | Some _ => false end) s1 with
                     | (Ok _, s') => (Ok expense, s')
                     | (Err err, s') => (Err err, s')
                     end) in
      heap s' = <[expense := e']> (heap s) ∧
      next s' = next s ∧
      trace s' = trace s ++ evs ∧
      details e' = details e ∧
      ((expenses s' = expenses s ∧ id e' = id e) ∨
       (id e = None ∧ expenses s' = expense :: expenses s ∧
        id e' = Some (getTime env)))) as Hstore.
  { intros e1 evs1 s1 He1 Hid1 Hdet1 Hheap1 Hnext1 Hexp1 Htr1.
    destruct (id e) as [n|] eqn:Hid.
    - rewrite storeExpense_existing.
      exists e1. eexists.
      destruct (storage_updateExpense _ _ _) as [[]|]; simpl;
        rewrite Htr1, <- app_assoc; repeat split; try done; by left.
    - rewrite (storeExpense_new _ _ _ _ He1).
      exists (with_id (Some (expenseId_of env e)) e1). eexists.
      destruct (storage_createExpense _ _ _) as [[]|]; simpl;
        rewrite Hheap1, insert_insert_eq, Htr1, <- app_assoc, Hexp1;
        (repeat split; try done); right; unfold expenseId_of; by rewrite Hid. }
  destruct (truthy (tempPath (receipt e))) eqn:Ht.
  - rewrite (createUpdateExpense_pending _ _ _ He Ht).
    destruct (persistReceipt env expense (expenseId_of env e) s)
      as [[[]|err] s1] eqn:Hp;
      destruct (persistReceipt_inv _ _ _ _ _ _ He Hp) as [evs Hs1].
    + destruct Hs1 as (data & uri & _ & _ & ->).
      eapply (Hstore _ evs); [apply lookup_insert_eq|done..].
    + subst s1. eexists _, evs. simpl. repeat split; try done. by left.
  - rewrite (createUpdateExpense_plain _ _ _ He Ht).
    apply (Hstore e [] s); try done.
    + by rewrite insert_id.
    + by rewrite app_nil_r.
Qed.

(** X1. However [createUpdateExpense] ends, it creates and removes no
    record, changes no record's descriptive fields, and changes no
    identifier other than giving one to the record it was handed when that
    record had none; for a record that already has an identifier the
    in-memory list is left as it is. (Nothing is said here about
    receipts.) *)
Theorem createUpdateExpense_keeps_identities expense e s :
  heap s !! expense = Some e →
  let s' := snd (createUpdateExpense env expense s) in
  (∀ l, is_Some (heap s' !! l) ↔ is_Some (heap s !! l)) ∧
  (∀ l e0, heap s !! l = Some e0 →
     ∃ e1, heap s' !! l = Some e1 ∧
           details e1 = details e0 ∧
           (l ≠ expense → id e1 = id e0) ∧
           (∀ n, id e0 = Some n → id e1 = Some n)) ∧
  (∀ n, id e = Some n → expenses s' = expenses s).
Proof.
  intros He.
  destruct (createUpdateExpense_outcome expense e s He)
    as (e' & evs & Hheap & _ & _ & Hdet & Hcase).
  simpl in *. split; [|split].
  - intros l. rewrite Hheap. destruct (decide (expense = l)) as [<-|Hne].
    + rewrite lookup_insert_eq, He. split; by eexists.
    + by rewrite lookup_insert_ne.
  - intros l e0 Hl. rewrite Hheap. destruct (decide (expense = l)) as [<-|Hne].
    + rewrite He in Hl. injection Hl as <-.
      exists e'. rewrite lookup_insert_eq. split; [done|]. split; [done|].
      split; [done|].
      intros n Hn. destruct Hcase as [[_ ->]|[Hnone _]]; congruence.
    + exists e0. rewrite lookup_insert_ne by done. done.
  - intros n Hn. destruct Hcase as [[-> _]|[Hnone _]]; congruence.
Qed.

(** X2. A null record. [createUpdateExpense] throws a TypeError before it
    does anything: no call is issued and nothing changes. [removeExpense]
    throws it only when it reads the receipt, after it has spliced the list
    and after the Record Store has deleted what it was given. *)
Theorem null_record_reference expense p s :
  heap s !! expense = None →
  createUpdateExpense env expense s = (Err TypeError, s) ∧
  let current := (λ l, heap s !! l) <$> splice1 p (expenses s) in
  (storage_deleteExpense env None current = Ok tt →
   removeExpense env expense p s =
     (Err TypeError,
      log [StorageDeleteExpense None current]
          (mkState (heap s) (next s) (splice1 p (expenses s)) (trace s)))).
Proof.
  intros He. split.
  - unfold createUpdateExpense, bind, deref. by rewrite He.
  - simpl. intros Hok. by rewrite removeExpense_run, He, Hok.
Qed.

(** X3. For a record without a pending capture [createUpdateExpense] issues
    exactly one call, to the Record Store, and none to the file system or
    the network; the receipt is left as it is. *)
Theorem createUpdateExpense_without_capture expense e s :
  heap s !! expense = Some e →
  truthy (tempPath (receipt e)) = false →
  let s' := snd (createUpdateExpense env expense s) in
  (∃ ev, trace s' = trace s ++ [ev] ∧
         is_storage_call ev = true ∧ is_file_call ev = false) ∧
  (∃ e', heap s' !! expense = Some e' ∧ receipt e' = receipt e).
Proof.
  intros He Ht. simpl. rewrite (createUpdateExpense_plain _ _ _ He Ht).
  destruct (id e) as [n|].
  - rewrite storeExpense_existing.
    destruct (storage_updateExpense _ _ _) as [[]|]; simpl;
      (split; [by eexists|by exists e]).
  - rewrite (storeExpense_new _ _ _ _ He).
    destruct (storage_createExpense _ _ _) as [[]|]; simpl;
      (split; [by eexists|]); rewrite lookup_insert_eq; by eexists.
Qed.

(** ** Further properties of saving a picture *)


(** X4. [savePicture] stops at the first collaborator that rejects and hands
    the rejection on unchanged. When the capture cannot be read (the file
    read on a device; the fetch, the blob or the data-URL conversion in the
    browser) nothing is written; the write is the last call it ever makes,
    and it never makes more than one. *)
Theorem savePicture_stops_at_first_rejection p s err :
  (isNativePlatform env = true →
   fs_readFile env (tempPath p) None = Err err →
   savePicture env p s = (Err err, log [FsReadFile (tempPath p) None] s)) ∧
  (isNativePlatform env = false →
   fetch env (tempPath p) = Err err →
   savePicture env p s = (Err err, log [Fetch (tempPath p)] s)) ∧
  (isNativePlatform env = false →
   ∀ response,
     fetch env (tempPath p) = Ok response →
     response_blob env response = Err err →
     savePicture env p s =
       (Err err, log [Fetch (tempPath p); ResponseBlob response] s)) ∧
  (isNativePlatform env = false →
   ∀ response blob,
     fetch env (tempPath p) = Ok response →
     response_blob env response = Ok blob →
     readAsDataURL env blob = Err err →
     savePicture env p s =
       (Err err, log [Fetch (tempPath p); ResponseBlob response;
                      ReadAsDataURL blob] s)) ∧
  (∀ r s' evs, savePicture env p s = (r, s') → trace s' = trace s ++ evs →
     length (List.filter is_write evs) ≤ 1 ∧
     (∀ ev, ev ∈ evs → is_write ev = true → last evs = Some ev)).
Proof.
  split; [|split; [|split; [|split]]].
  - intros Hn Hread. unfold savePicture, readAsBase64, bind, await.
    by rewrite Hn, Hread.
  - intros Hn Hfetch.
    unfold savePicture, readAsBase64, bind, await. by rewrite Hn, Hfetch.
  - intros Hn response Hfetch Hblob.
    unfold savePicture, readAsBase64, bind, await.
    rewrite Hn, Hfetch, Hblob. by rewrite log_log.
  - intros Hn response blob Hfetch Hblob Hdata.
    unfold savePicture, readAsBase64, convertBlobToBase64, bind, await.
    rewrite Hn, Hfetch, Hblob, Hdata. by rewrite !log_log.
  - intros r s' evs. unfold savePicture, readAsBase64, convertBlobToBase64, bind, await.
    destruct (isNativePlatform env).
    + destruct (fs_readFile env (tempPath p) None) as [data|];
        [destruct (fs_writeFile env (name p) data Data)|];
        intros [= <- <-]; simpl; rewrite <- ?app_assoc;
        intros <-%app_inv_head; simpl; (split; [lia|]);
        intros ev Hev Hw; repeat (apply elem_of_cons in Hev as [->|Hev]);
        try done; by apply elem_of_nil in Hev.
    + destruct (fetch env (tempPath p)) as [resp|];
        [destruct (response_blob env resp) as [b|];
         [destruct (readAsDataURL env b) as [data|];
          [destruct (fs_writeFile env (name p) data Data)|]|]|];
        intros [= <- <-]; simpl; rewrite <- ?app_assoc;
        intros <-%app_inv_head; simpl; (split; [lia|]);
        intros ev Hev Hw; repeat (apply elem_of_cons in Hev as [->|Hev]);
        try done; by apply elem_of_nil in Hev.
Qed.


(** X6. Creation is not rolled back. When the Record Store rejects the
    creation of a new record, [createUpdateExpense] rejects with the same
    error, but the record is already in front of the in-memory list and
    already carries its generated identifier. *)
Theorem createUpdateExpense_creation_rejected expense e s err :
  heap s !! expense = Some e →
  id e = None →
  (truthy (tempPath (receipt e)) = false ∨
   ∃ s1, persistReceipt env expense (getTime env) s = (Ok tt, s1)) →
  (∀ arg current, storage_createExpense env arg current = Err err) →
  ∃ s', createUpdateExpense env expense s = (Err err, s') ∧
        expenses s' = expense :: expenses s ∧
        ∃ e', heap s' !! expense = Some e' ∧ id e' = Some (getTime env).
Proof.
  intros He Hid Hsave Hreject.
  destruct (truthy (tempPath (receipt e))) eqn:Ht.
  - destruct Hsave as [|[s1 Hp]]; [done|].
    rewrite (createUpdateExpense_pending _ _ _ He Ht).
    unfold expenseId_of. rewrite Hid, Hp.
    destruct (persistReceipt_inv _ _ _ _ _ _ He Hp)
      as (evs & data & uri & _ & _ & ->).
    erewrite storeExpense_new; [|apply lookup_insert_eq].
    rewrite Hreject. eexists. split; [done|]. simpl. split; [done|].
    rewrite lookup_insert_eq. by eexists.
  - rewrite (createUpdateExpense_plain _ _ _ He Ht).
    unfold expenseId_of. rewrite Hid, (storeExpense_new _ _ _ _ He), Hreject.
    eexists. split; [done|]. simpl. split; [done|].
    rewrite lookup_insert_eq. by eexists.
Qed.

(** ** How the operations compose *)

(** A receipt file name is never empty. *)
Lemma truthy_file_name (a : string) : truthy (JStr (a +:+ ".jpeg")) = true.
Proof. by destruct a. Qed.

(** A completed creation, seen from the state. *)
Lemma createUpdateExpense_new_ok expense e s r s' :
  heap s !! expense = Some e →
  id e = None →
  createUpdateExpense env expense s = (Ok r, s') →
  let fname := JStr (Number_toString (getTime env) +:+ ".jpeg") in
  expenses s' = expense :: expenses s ∧
  ∃ e' evs,
    heap s' = <[expense := e']> (heap s) ∧
    id e' = Some (getTime env) ∧
    trace s' = trace s ++ evs ∧
    if truthy (tempPath (receipt e))
    then name (receipt e') = fname ∧
         ∃ data, List.filter is_write evs = [FsWriteFile fname data Data]
    else receipt e' = receipt e ∧ List.filter is_write evs = [].
Proof.
  intros He Hid. destruct (truthy (tempPath (receipt e))) eqn:Ht.
  - intros Hrun.
    destruct (createUpdateExpense_pending_ok _ _ _ _ _ He Ht Hrun)
      as (evs & data & uri & ev & _ & Hw & _ & Htr & Hcase).
    unfold expenseId_of in *. rewrite Hid in *.
    destruct Hcase as (Hheap & Hexp & arg & current & ->).
    simpl. split; [done|]. eexists _, (evs ++ [_]).
    split; [exact Hheap|]. split; [done|]. split; [done|]. split; [done|].
    exists data. by rewrite List.filter_app, Hw.
  - rewrite (createUpdateExpense_plain _ _ _ He Ht), Hid.
    rewrite (storeExpense_new _ _ _ _ He).
    destruct (storage_createExpense _ _ _) as [[]|]; [|done].
    intros [= <- <-]. simpl. split; [done|]. eexists _, [_].
    split; [done|]. unfold expenseId_of. rewrite Hid. done.
Qed.

(** X7. Create, then look up. After a completed creation of a new record,
    [getExpense] of the generated identifier returns that very record. *)
Theorem create_then_getExpense expense e s r s' :
  heap s !! expense = Some e →
  id e = None →
  createUpdateExpense env expense s = (Ok r, s') →
  getExpense (getTime env) s' = (Ok (Some expense), s').
Proof.
  intros He Hid Hrun.
  destruct (createUpdateExpense_new_ok _ _ _ _ _ He Hid Hrun)
    as (Hexp & e' & evs & Hheap & Hid' & _).
  unfold getExpense, bind, get_expenses. rewrite Hexp. simpl.
  unfold bind, deref. rewrite Hheap, lookup_insert_eq, Hid'. simpl.
  by rewrite Z.eqb_refl.
Qed.

(** X8. Create, then remove. Removing a freshly created record at position
    0 gives back the in-memory list as it was before the creation; and when
    the creation saved a capture, the removal (once the Record Store has
    deleted the record) asks the Filesystem to delete the very file that
    the creation wrote, in the same directory. *)
Theorem create_then_remove expense e s r s' :
  heap s !! expense = Some e →
  id e = None →
  createUpdateExpense env expense s = (Ok r, s') →
  let s'' := snd (removeExpense env expense 0 s') in
  let fname := JStr (Number_toString (getTime env) +:+ ".jpeg") in
  expenses s'' = expenses s ∧
  (truthy (tempPath (receipt e)) = true →
   (∀ arg current, storage_deleteExpense env arg current = Ok tt) →
   ∃ data evs1 evs2,
     trace s' = trace s ++ evs1 ∧
     List.filter is_write evs1 = [FsWriteFile fname data Data] ∧
     trace s'' = trace s' ++ evs2 ∧
     List.filter is_delete evs2 = [FsDeleteFile fname Data]).
Proof.
  intros He Hid Hrun.
  destruct (createUpdateExpense_new_ok _ _ _ _ _ He Hid Hrun)
    as (Hexp & e' & evs & Hheap & Hid' & Htr & Hcase).
  simpl. split.
  - rewrite removeExpense_expenses, Hexp.
    rewrite splice1_valid by (cbn [length]; lia). reflexivity.
  - intros Ht Hdelete. rewrite Ht in Hcase. destruct Hcase as (Hname & data & Hw).
    exists data, evs. rewrite removeExpense_run, Hdelete.
    rewrite Hheap, lookup_insert_eq, Hname, truthy_file_name. simpl.
    eexists. split; [done|]. split; [done|]. split; [done|]. done.
Qed.

(** X9. Identifiers collide. When two new records are created while the
    clock reads the same millisecond, both get the same identifier (and,
    when both carry a capture, the same receipt file name); both are in the
    list, but [getExpense] of that identifier only ever returns the one
    created last. *)
Theorem createUpdateExpense_identifier_collision a b ea eb s ra s1 rb s2 :
  a ≠ b →
  heap s !! a = Some ea → id ea = None →
  heap s !! b = Some eb → id eb = None →
  createUpdateExpense env a s = (Ok ra, s1) →
  createUpdateExpense env b s1 = (Ok rb, s2) →
  expenses s2 = b :: a :: expenses s ∧
  getExpense (getTime env) s2 = (Ok (Some b), s2) ∧
  ∃ ea' eb',
    heap s2 !! a = Some ea' ∧ heap s2 !! b = Some eb' ∧
    id ea' = Some (getTime env) ∧ id eb' = Some (getTime env) ∧
    (truthy (tempPath (receipt ea)) = true →
     truthy (tempPath (receipt eb)) = true →
     name (receipt ea') = name (receipt eb')).
Proof.
  intros Hab Ha Hida Hb Hidb Hrun1 Hrun2.
  destruct (createUpdateExpense_new_ok _ _ _ _ _ Ha Hida Hrun1)
    as (Hexp1 & ea' & evs1 & Hheap1 & Hida' & _ & Hcase1).
  assert (heap s1 !! b = Some eb) as Hb1.
  { rewrite Hheap1. by rewrite lookup_insert_ne. }
  destruct (createUpdateExpense_new_ok _ _ _ _ _ Hb1 Hidb Hrun2)
    as (Hexp2 & eb' & evs2 & Hheap2 & Hidb' & _ & Hcase2).
  split; [by rewrite Hexp2, Hexp1|]. split.
  - unfold getExpense, bind, get_expenses. rewrite Hexp2. simpl.
    unfold bind, deref. rewrite Hheap2, lookup_insert_eq, Hidb'. simpl.
    by rewrite Z.eqb_refl.
  - exists ea', eb'. rewrite Hheap2, lookup_insert_eq.
    rewrite lookup_insert_ne by done. rewrite Hheap1, lookup_insert_eq.
    repeat split; try done.
    intros Hta Htb. rewrite Hta in Hcase1. rewrite Htb in Hcase2.
    destruct Hcase1 as [-> _]. by destruct Hcase2 as [-> _].
Qed.

(** ** Further properties of looking up *)

Lemma find_id_first id0 ls : ∀ s l s',
  find_id id0 ls s = (Ok (Some l), s') →
  ∃ i, ls !! i = Some l ∧
       (∃ e, heap s !! l = Some e ∧ id e = Some id0) ∧
       ∀ j l', j < i → ls !! j = Some l' →
               ∃ e', heap s !! l' = Some e' ∧ id e' ≠ Some id0.
Proof.
  induction ls as [|l0 ls IH]; intros s l s'; [done|].
  simpl. unfold bind at 1, deref.
  destruct (heap s !! l0) as [e0|] eqn:He0; [|done].
  destruct (strict_eq (id e0) id0) eqn:Heq.
  - intros [= <- <-]. exists 0. split; [done|]. split.
    + exists e0. split; [done|]. by apply strict_eq_true.
    + intros j l' Hj. lia.
  - intros Hrun. destruct (IH _ _ _ Hrun) as (i & Hi & Hl & Hbefore).
    exists (S i). split; [done|]. split; [done|].
    intros [|j] l' Hj Hl'.
    + injection Hl' as <-. exists e0. split; [done|].
      intros Hid%strict_eq_true. congruence.
    + apply (Hbefore j); [lia|done].
Qed.

(** X10. [getExpense] returns the first match. When it returns a record,
    that record has the identifier asked for and every record before it in
    the in-memory list has another one: of two records with the same
    identifier, the one nearer the front is found. *)
Theorem getExpense_first_match id0 s l s' :
  getExpense id0 s = (Ok (Some l), s') →
  ∃ i, expenses s !! i = Some l ∧
       (∃ e, heap s !! l = Some e ∧ id e = Some id0) ∧
       ∀ j l', j < i → expenses s !! j = Some l' →
               ∃ e', heap s !! l' = Some e' ∧ id e' ≠ Some id0.
Proof. apply find_id_first. Qed.

(** ** The list holds no null reference *)

Lemma elem_of_splice1 {A} (p : Z) (x : A) (l : list A) :
  x ∈ splice1 p l → x ∈ l.
Proof.
  unfold splice1. intros [Hx|Hx]%elem_of_app.
  - by eapply subseteq_take.
  - by eapply subseteq_drop.
Qed.

Lemma loadSaved_loop_grows ls : ∀ s,
  expenses (snd (loadSaved_loop env ls s)) = expenses s ∧
  ∀ l, is_Some (heap s !! l) → is_Some (heap (snd (loadSaved_loop env ls s)) !! l).
Proof.
  induction ls as [|l0 ls IH]; intros s; [done|].
  cbn [loadSaved_loop]. unfold bind.
  assert (expenses (snd (loadSaved_step env l0 s)) = expenses s ∧
          ∀ l, is_Some (heap s !! l) →
               is_Some (heap (snd (loadSaved_step env l0 s)) !! l)) as [Hexp Hgrow].
  { unfold loadSaved_step, bind, deref.
    destruct (heap s !! l0) as [e0|] eqn:He0; [|done].
    destruct (truthy (filePath (receipt e0))); [|done].
    unfold await. destruct (fs_readFile _ _ _) as [data|]; [|done].
    unfold update. simpl. rewrite He0. simpl. split; [done|].
    intros l Hl. destruct (decide (l0 = l)) as [->|Hne].
    - rewrite lookup_insert_eq. by eexists.
    - by rewrite lookup_insert_ne. }
  destruct (loadSaved_step env l0 s) as [[[]|err] s1]; [|done].
  simpl in Hexp, Hgrow. destruct (IH s1) as [Hexp1 Hgrow1].
  split; [congruence|]. intros l Hl. by apply Hgrow1, Hgrow.
Qed.

(** X11. The in-memory list never comes to hold a null reference: if every
    entry of the list is an object before [loadSaved], [createUpdateExpense]
    or [removeExpense], every entry is one afterwards, however the
    operation ends. (So [getExpense], which reads every entry up to the
    match, does not throw.) *)
Theorem list_without_null_preserved s :
  list_wf s →
  list_wf (snd (loadSaved env s)) ∧
  (∀ expense, list_wf (snd (createUpdateExpense env expense s))) ∧
  (∀ expense p, list_wf (snd (removeExpense env expense p s))) ∧
  (∀ id0, ∃ r, getExpense id0 s = (Ok r, s)).
Proof.
  intros Hwf. split; [|split; [|split]].
  - unfold loadSaved. unfold bind at 1, await.
    destruct (storage_init env) as [[]|]; [|done].
    unfold bind at 1.
    destruct (storage_readExpenses env) as [stored|]; [|done].
    unfold bind at 1.
    destruct (alloc_all_run stored (log [StorageReadExpenses] (log [StorageInit] s)))
      as (s1 & Halloc & _ & _ & _ & Hnew & _).
    rewrite Halloc. simpl in Hnew.
    unfold bind at 1, set_expenses. unfold bind at 1.
    set (ls := seq (next s) (length stored)).
    set (s2 := mkState (heap s1) (next s1) ls (trace s1)).
    assert (list_wf s2) as Hwf2.
    { intros l Hl%elem_of_seq.
      destruct (lookup_lt_is_Some_2 stored (l - next s)) as [e He]; [lia|].
      exists e. simpl. replace l with (next s + (l - next s)) by lia.
      by apply Hnew. }
    destruct (String.eqb _ _); [|done].
    unfold bind at 1, get_expenses. simpl. fold ls. fold s2.
    destruct (loadSaved_loop_grows ls s2) as [Hexp Hgrow].
    destruct (loadSaved_loop env ls s2) as [[[]|err] s3]; simpl in *;
      intros l Hl; rewrite Hexp in Hl; by apply Hgrow, Hwf2.
  - intros expense. destruct (heap s !! expense) as [e|] eqn:He.
    + destruct (createUpdateExpense_outcome expense e s He)
        as (e' & evs & Hheap & _ & _ & _ & Hcase).
      simpl in *. intros l Hl. rewrite Hheap.
      destruct (decide (expense = l)) as [->|Hne].
      * rewrite lookup_insert_eq. by eexists.
      * rewrite lookup_insert_ne by done. apply Hwf.
        destruct Hcase as [[Hexp _]|(_ & Hexp & _)]; rewrite Hexp in Hl; [done|].
        by apply elem_of_cons in Hl as [->|Hl].
    + unfold createUpdateExpense, bind, deref. by rewrite He.
  - intros expense p l Hl. rewrite removeExpense_expenses in Hl.
    apply elem_of_splice1 in Hl.
    assert (heap (snd (removeExpense env expense p s)) = heap s) as ->; [|by apply Hwf].
    rewrite removeExpense_run.
    destruct (storage_deleteExpense _ _ _) as [[]|err]; [|done].
    destruct (heap s !! expense) as [e|]; [|done].
    by destruct (truthy (name (receipt e))).
  - intros id0. destruct (find_id_spec id0 (expenses s) s Hwf) as (r & Hrun & _).
    by exists r.
Qed.

(** ** Further properties of removing *)

Lemma splice1_past_end {A} (p : Z) (l : list A) :
  (Z.of_nat (length l) ≤ p)%Z → splice1 p l = l.
Proof.
  intros Hp. unfold splice1.
  destruct (Z.ltb_spec p 0) as [?|_]; [lia|].
  rewrite Z.min_r by lia. rewrite Z.sub_diag, Z.min_r by lia.
  rewrite Nat2Z.id, Nat.add_0_r, take_ge, drop_ge by lia.
  apply app_nil_r.
Qed.

Lemma splice1_from_end {A} (p : Z) (l : list A) :
  (- Z.of_nat (length l) ≤ p < 0)%Z →
  splice1 p l =
    take (Z.to_nat (Z.of_nat (length l) + p)) l ++
    drop (S (Z.to_nat (Z.of_nat (length l) + p))) l.
Proof.
  intros Hp. unfold splice1.
  destruct (Z.ltb_spec p 0) as [_|?]; [|lia].
  rewrite Z.max_l by lia. rewrite Z.min_l by lia.
  do 2 f_equal. lia.
Qed.

Lemma splice1_before_start {A} (p : Z) (l : list A) :
  (p < - Z.of_nat (length l))%Z → splice1 p l = drop 1 l.
Proof.
  intros Hp. unfold splice1.
  destruct (Z.ltb_spec p 0) as [_|?]; [|lia].
  rewrite Z.max_r by lia. destruct l as [|x l]; [done|].
  rewrite Z.min_l by (cbn [length]; lia). done.
Qed.

(** X12. [removeExpense] does not check the position. A position at or past
    the end of the list removes nothing from the list, yet the Record Store
    is still asked to delete the record and, for a named receipt, the file
    is still deleted. A negative position counts from the end of the list,
    and one before the start removes the first record. *)
Theorem removeExpense_unchecked_position expense e p s :
  heap s !! expense = Some e →
  let s' := snd (removeExpense env expense p s) in
  let len := Z.of_nat (length (expenses s)) in
  let current := (λ l, heap s !! l) <$> expenses s in
  ((len ≤ p)%Z →
   expenses s' = expenses s ∧
   ∃ evs,
     trace s' = trace s ++ StorageDeleteExpense (Some e) current :: evs ∧
     (storage_deleteExpense env (Some e) current = Ok tt →
      truthy (name (receipt e)) = true →
      evs = [FsDeleteFile (name (receipt e)) Data])) ∧
  ((- len ≤ p < 0)%Z →
   expenses s' =
     take (Z.to_nat (len + p)) (expenses s) ++
     drop (S (Z.to_nat (len + p))) (expenses s)) ∧
  ((p < - len)%Z → expenses s' = drop 1 (expenses s)).
Proof.
  intros He. simpl. split; [|split].
  - intros Hp. rewrite removeExpense_run, He, (splice1_past_end _ _ Hp).
    destruct (storage_deleteExpense _ _ _) as [[]|err].
    + destruct (truthy (name (receipt e))); simpl;
        (split; [done|]); eexists; (split; [done|]); done.
    + simpl. split; [done|]. eexists. split; [done|]. done.
  - intros Hp. by rewrite removeExpense_expenses, (splice1_from_end _ _ Hp).
  - intros Hp. by rewrite removeExpense_expenses, (splice1_before_start _ _ Hp).
Qed.


(** ** Further properties of loading *)

(** X14. A load that the Record Store rejects, at [init] or at
    [readExpenses], rejects with the same error and leaves the list that
    was in memory and every record as they were; the Filesystem is not
    called. A load from an empty store empties the in-memory list,
    whatever it held, and calls the Filesystem on no platform. *)
Theorem loadSaved_rejected_or_empty s :
  (∀ err, storage_init env = Err err →
     loadSaved env s = (Err err, log [StorageInit] s)) ∧
  (∀ err, storage_init env = Ok tt → storage_readExpenses env = Err err →
     loadSaved env s = (Err err, log [StorageInit; StorageReadExpenses] s)) ∧
  (storage_init env = Ok tt → storage_readExpenses env = Ok [] →
     loadSaved env s =
       (Ok [], mkState (heap s) (next s) []
                       (trace s ++ [StorageInit; StorageReadExpenses]))).
Proof.
  split; [|split].
  - intros err Hinit. unfold loadSaved, bind, await. by rewrite Hinit.
  - intros err Hinit Hread. unfold loadSaved, bind, await.
    rewrite Hinit, Hread. by rewrite log_log.
  - intros Hinit Hread. unfold loadSaved, bind, await.
    rewrite Hinit, Hread. simpl.
    destruct (String.eqb _ _); simpl; by rewrite <- app_assoc.
Qed.

Lemma loadSaved_step_trace expense e s :
  heap s !! expense = Some e →
  (truthy (filePath (receipt e)) = true →
   ∃ data, fs_readFile env (filePath (receipt e)) (Some Data) = Ok data) →
  loadSaved_step env expense s =
    (Ok tt,
     log (if truthy (filePath (receipt e))
          then [FsReadFile (filePath (receipt e)) (Some Data)] else [])
         (store expense (inline_receipt env e) s)).
Proof.
  intros He Hread. unfold loadSaved_step, inline_receipt, bind, deref.
  rewrite He. destruct (truthy (filePath (receipt e))).
  - destruct Hread as [data Hdata]; [done|]. unfold await. rewrite Hdata.
    unfold update. simpl. by rewrite He.
  - unfold ret, store. rewrite log_nil, insert_id by done. by destruct s.
Qed.

Lemma Forall2_impl_elem {A B} (P Q : A → B → Prop) (l : list A) (k : list B) :
  Forall2 P l k → (∀ x y, x ∈ l → P x y → Q x y) → Forall2 Q l k.
Proof.
  induction 1 as [|x y l k Hxy _ IH]; intros Himpl; constructor.
  - apply Himpl; [apply list_elem_of_here|done].
  - apply IH. intros x' y' Hx'. apply Himpl. by apply list_elem_of_further.
Qed.

Lemma loadSaved_loop_trace ls es : ∀ s,
  Forall2 (λ l e, heap s !! l = Some e) ls es →
  NoDup ls →
  (∀ e, e ∈ es → truthy (filePath (receipt e)) = true →
        ∃ data, fs_readFile env (filePath (receipt e)) (Some Data) = Ok data) →
  trace (snd (loadSaved_loop env ls s)) =
    trace s ++ ((λ e, FsReadFile (filePath (receipt e)) (Some Data))
                  <$> with_persisted_path es).
Proof.
  revert es. induction ls as [|l ls IH]; intros es s Hall Hnd Hread.
  - apply Forall2_nil_inv_l in Hall as ->. simpl. by rewrite app_nil_r.
  - apply Forall2_cons_inv_l in Hall as (e & es' & He & Hall & ->).
    apply NoDup_cons in Hnd as [Hl Hnd].
    cbn [loadSaved_loop]. unfold bind.
    rewrite (loadSaved_step_trace l e s He)
      by (apply Hread, list_elem_of_here).
    rewrite (IH es').
    + unfold with_persisted_path. cbn [List.filter].
      destruct (truthy (filePath (receipt e))); simpl.
      * by rewrite <- app_assoc.
      * by rewrite app_nil_r.
    + eapply Forall2_impl_elem; [exact Hall|].
      intros l' e' Hl' He'. simpl. rewrite lookup_insert_ne; [done|].
      intros ->. done.
    + done.
    + intros e' He'. apply Hread. by apply list_elem_of_further.
Qed.

(** X15. The calls of a load. Once the Record Store has handed over its
    records, [loadSaved] has called [init], then [readExpenses], and then,
    on the web platform, the Filesystem once for every stored record with a
    persisted receipt path, in the order of the list and in the data
    directory; on any other platform it makes no further call. *)
Theorem loadSaved_calls stored s :
  storage_init env = Ok tt →
  storage_readExpenses env = Ok stored →
  (getPlatform env = "web" →
   ∀ e, e ∈ stored → truthy (filePath (receipt e)) = true →
        ∃ data, fs_readFile env (filePath (receipt e)) (Some Data) = Ok data) →
  trace (snd (loadSaved env s)) =
    trace s ++ [StorageInit; StorageReadExpenses] ++
    (if String.eqb (getPlatform env) "web"
     then (λ e, FsReadFile (filePath (receipt e)) (Some Data))
            <$> with_persisted_path stored
     else []).
Proof.
  intros Hinit Hstored Hreads.
  unfold loadSaved. unfold bind at 1, await. rewrite Hinit.
  unfold bind at 1. rewrite Hstored. unfold bind at 1.
  destruct (alloc_all_run stored (log [StorageReadExpenses] (log [StorageInit] s)))
    as (s1 & Halloc & Hnext & Hexp & Htr & Hnew & Hold).
  rewrite Halloc. simpl in Hnew, Htr.
  unfold bind at 1, set_expenses. unfold bind at 1.
  destruct (String.eqb_spec (getPlatform env) "web") as [Hweb|Hweb].
  - unfold bind at 1, get_expenses. simpl.
    set (ls := seq (next s) (length stored)).
    set (s2 := mkState (heap s1) (next s1) ls (trace s1)).
    assert (trace (snd (loadSaved_loop env ls s2)) =
            trace s2 ++ ((λ e, FsReadFile (filePath (receipt e)) (Some Data))
                           <$> with_persisted_path stored)) as Hloop.
    { apply loadSaved_loop_trace; [|apply NoDup_seq|by apply Hreads].
      apply Forall2_same_length_lookup_2; [apply length_seq|].
      intros i l e [-> Hi]%lookup_seq He. by apply Hnew. }
    destruct (loadSaved_loop env ls s2) as [[[]|err] s3]; simpl in *.
    all: by rewrite Hloop, Htr, <- !app_assoc.
  - simpl. by rewrite Htr, <- !app_assoc.
Qed.

Lemma loadSaved_loop_rejected ls1 : ∀ s l ls2 e err,
  NoDup (ls1 ++ [l]) →
  (∀ l1, l1 ∈ ls1 → ∃ e1, heap s !! l1 = Some e1 ∧
     (truthy (filePath (receipt e1)) = true →
      ∃ data, fs_readFile env (filePath (receipt e1)) (Some Data) = Ok data)) →
  heap s !! l = Some e →
  truthy (filePath (receipt e)) = true →
  fs_readFile env (filePath (receipt e)) (Some Data) = Err err →
  ∃ s', loadSaved_loop env (ls1 ++ l :: ls2) s = (Err err, s') ∧
        expenses s' = expenses s ∧
        (∀ l1 e1, l1 ∈ ls1 → heap s !! l1 = Some e1 →
                  heap s' !! l1 = Some (inline_receipt env e1)) ∧
        (∀ l', l' ∉ ls1 → heap s' !! l' = heap s !! l').
Proof.
  induction ls1 as [|l1 ls1 IH]; intros s l ls2 e err Hnd Hok He Ht Hfail.
  - eexists. cbn [app loadSaved_loop]. unfold bind, loadSaved_step, bind, deref.
    rewrite He, Ht. unfold await. rewrite Hfail.
    split; [done|]. split; [done|]. split; [|done].
    intros l1 e1 Hl1. by apply elem_of_nil in Hl1.
  - cbn [app] in Hnd. apply NoDup_cons in Hnd as [Hl1 Hnd].
    destruct (Hok l1) as (e1 & He1 & Hread1); [apply list_elem_of_here|].
    destruct (loadSaved_step_run l1 e1 s He1 Hread1) as [evs Hstep].
    assert (l1 ≠ l) as Hne.
    { intros ->. apply Hl1, elem_of_app. right. apply list_elem_of_here. }
    destruct (IH (log evs (store l1 (inline_receipt env e1) s)) l ls2 e err Hnd)
      as (s' & Hrun & Hexp & Hin & Hout); try done.
    { intros l' Hl'. destruct (Hok l') as (e' & He' & Hread');
        [by apply list_elem_of_further|].
      exists e'. split; [|done]. simpl. rewrite lookup_insert_ne; [done|].
      intros ->. apply Hl1, elem_of_app. by left. }
    { simpl. by rewrite lookup_insert_ne. }
    exists s'. cbn [app loadSaved_loop]. unfold bind. rewrite Hstep.
    split; [exact Hrun|]. split; [done|]. split.
    + intros l' e' [->|Hl']%elem_of_cons He'.
      * rewrite Hout. { simpl. rewrite lookup_insert_eq. congruence. }
        intros Hin1. apply Hl1, elem_of_app. by left.
      * apply Hin; [done|]. simpl. rewrite lookup_insert_ne; [done|].
        intros ->. apply Hl1, elem_of_app. by left.
    + intros l' [Hne' Hl']%not_elem_of_cons. rewrite Hout by done.
      simpl. by rewrite lookup_insert_ne.
Qed.

(** X16. A load that fails half-way. On the web platform, when the file of
    one stored record cannot be read, [loadSaved] rejects with that error,
    but the in-memory list has already been replaced by the stored records:
    those before the failing one carry their inline image URL, the failing
    one and those after it are as the store returned them. *)
Theorem loadSaved_rejected_half_way pre e post s err :
  storage_init env = Ok tt →
  storage_readExpenses env = Ok (pre ++ e :: post) →
  getPlatform env = "web" →
  (∀ e0, e0 ∈ pre → truthy (filePath (receipt e0)) = true →
         ∃ data, fs_readFile env (filePath (receipt e0)) (Some Data) = Ok data) →
  truthy (filePath (receipt e)) = true →
  fs_readFile env (filePath (receipt e)) (Some Data) = Err err →
  ∃ s', loadSaved env s = (Err err, s') ∧
        expenses s' = seq (next s) (length (pre ++ e :: post)) ∧
        (∀ i e0, pre !! i = Some e0 →
                 heap s' !! (next s + i) = Some (inline_receipt env e0)) ∧
        (∀ i e0, (e :: post) !! i = Some e0 →
                 heap s' !! (next s + length pre + i) = Some e0).
Proof.
  intros Hinit Hstored Hweb Hreads Ht Hfail.
  unfold loadSaved. unfold bind at 1, await. rewrite Hinit.
  unfold bind at 1. rewrite Hstored. unfold bind at 1.
  destruct (alloc_all_run (pre ++ e :: post)
              (log [StorageReadExpenses] (log [StorageInit] s)))
    as (s1 & Halloc & _ & _ & _ & Hnew & _).
  rewrite Halloc. simpl in Hnew.
  unfold bind at 1, set_expenses. unfold bind at 1.
  rewrite Hweb. simpl. unfold bind at 1, get_expenses. simpl.
  assert (seq (next s) (length (pre ++ e :: post))
          = seq (next s) (length pre)
            ++ (next s + length pre) :: seq (S (next s + length pre)) (length post))
    as Hseq.
  { rewrite length_app. cbn [length]. by rewrite seq_app. }
  rewrite Hseq.
  lazymatch goal with
  | |- context [loadSaved_loop env (?l1 ++ ?l :: ?l2) ?st] =>
      destruct (loadSaved_loop_rejected l1 st l l2 e err)
        as (s' & Hrun & Hexp & Hin & Hout); try done
  end.
  { apply NoDup_app. split; [apply NoDup_seq|]. split; [|apply NoDup_singleton].
    intros x Hx%elem_of_seq Hx'%list_elem_of_singleton. lia. }
  { intros l Hl%elem_of_seq.
    destruct (lookup_lt_is_Some_2 pre (l - next s)) as [e0 He0]; [lia|].
    exists e0. simpl. split.
    - replace l with (next s + (l - next s)) by lia.
      apply Hnew. by apply lookup_app_l_Some.
    - apply Hreads. by eapply list_elem_of_lookup_2. }
  { simpl. apply Hnew. by rewrite list_lookup_middle. }
  exists s'. unfold bind. unfold loc in Hrun. rewrite Hrun. split; [done|]. split; [done|]. split.
  - intros i e0 Hi. apply Hin.
    + apply elem_of_seq. apply lookup_lt_Some in Hi. lia.
    + simpl. apply Hnew. by apply lookup_app_l_Some.
  - intros i e0 Hi. rewrite Hout.
    + simpl. replace (next s + length pre + i) with (next s + (length pre + i)) by lia.
      apply Hnew. rewrite lookup_app_r by lia.
      by replace (length pre + i - length pre) with i by lia.
    + intros Hmem%elem_of_seq. lia.
Qed.

(** ** Capturing a receipt *)

(** X17. [captureExpenseReceipt] makes one call, to the camera, with a
    fixed configuration (result by URI, camera as source, quality 100), and
    touches neither the records nor the list; a rejection of the camera
    (cancelled, permission denied) is handed on. It returns the platform's
    reference (the path on a device, the web path in the browser) together
    with the display URL of that same reference, and that reference is the
    one [savePicture] later reads with the platform's own means: a file
    read on a device, a fetch in the browser. *)
Theorem captureExpenseReceipt_reference s :
  let options := mkImageOptions Uri Camera 100 in
  snd (captureExpenseReceipt env s) = log [CameraGetPhoto options] s ∧
  (∀ err, camera_getPhoto env options = Err err →
          fst (captureExpenseReceipt env s) = Err err) ∧
  (∀ path webPath, camera_getPhoto env options = Ok (path, webPath) →
     let filepath := if isNativePlatform env then path else webPath in
     fst (captureExpenseReceipt env s) =
       Ok (TrustedUrl (convertFileSrc_js env filepath), filepath) ∧
     ∀ p s0, tempPath p = filepath →
       ∃ evs, trace (snd (savePicture env p s0)) =
                trace s0 ++ (if isNativePlatform env
                             then FsReadFile filepath None
                             else Fetch filepath) :: evs).
Proof.
  simpl. unfold captureExpenseReceipt, bind, await. split; [|split].
  - by destruct (camera_getPhoto env _) as [[path webPath]|].
  - by intros err ->.
  - intros path webPath ->. simpl. split; [done|].
    intros p s0 <-.
    unfold savePicture, readAsBase64, convertBlobToBase64, bind, await.
    destruct (isNativePlatform env).
    + destruct (fs_readFile env (tempPath p) None) as [data|];
        [destruct (fs_writeFile env (name p) data Data)|];
        simpl; rewrite <- ?app_assoc; by eexists.
    + destruct (fetch env (tempPath p)) as [resp|];
        [destruct (response_blob env resp) as [b|];
         [destruct (readAsDataURL env b) as [data|];
          [destruct (fs_writeFile env (name p) data Data)|]|]|];
        simpl; rewrite <- ?app_assoc; by eexists.
Qed.

End Properties.

(** * The service at sample inputs *)

Example splice1_positions :
  (splice1 1 [10; 20; 30], splice1 (-1) [10; 20; 30],
   splice1 (-7) [10; 20; 30], splice1 3 [10; 20; 30])
  = ([10; 30], [10; 20], [20; 30], [10; 20; 30]).
Proof. reflexivity. Qed.

Example createUpdateExpense_new_on_web :
  let '(r, s) := createUpdateExpense web_env 0 sample_state in
  r = Ok 0 ∧
  expenses s = [0; 1] ∧
  heap s !! 0 =
    Some (mkExpense (Some 1700000000000%Z)
            (mkPhoto (JStr "1700000000000.jpeg") JNull
                     (JStr "1700000000000.jpeg") (JStr "blob:xyz")) "coffee") ∧
  List.filter is_write (trace s) =
    [FsWriteFile (JStr "1700000000000.jpeg") "data:image/jpeg;base64,img" Data].
Proof. vm_compute. repeat split. Qed.

Example createUpdateExpense_new_on_device :
  let '(r, s) := createUpdateExpense native_env 0 sample_state in
  r = Ok 0 ∧
  (receipt <$> heap s !! 0) =
    Some (mkPhoto (JStr "1700000000000.jpeg") JNull
            (JStr "file:///data/1700000000000.jpeg")
            (JStr "capacitor://localhost/_capacitor_file_file:///data/1700000000000.jpeg")) ∧
  trace s =
    [FsReadFile (JStr "blob:xyz") None;
     FsWriteFile (JStr "1700000000000.jpeg") "QUJD" Data;
     StorageCreateExpense (heap s !! 0) [heap s !! 0; Some lunch]].
Proof. vm_compute. repeat split. Qed.

Example loadSaved_on_web :
  let '(r, s) := loadSaved web_env sample_state in
  r = Ok [3; 4] ∧
  expenses s = [3; 4] ∧
  (webviewPath ∘ receipt <$> heap s !! 3) = Some (JStr "data:image/jpeg;base64,QUJD") ∧
  (webviewPath ∘ receipt <$> heap s !! 4) = Some JUndefined ∧
  trace s = [StorageInit; StorageReadExpenses; FsReadFile (JStr "5.jpeg") (Some Data)].
Proof. vm_compute. repeat split. Qed.

Example loadSaved_on_device :
  let '(r, s) := loadSaved native_env sample_state in
  r = Ok [3; 4] ∧
  (webviewPath ∘ receipt <$> heap s !! 3) = Some JUndefined ∧
  trace s = [StorageInit; StorageReadExpenses].
Proof. vm_compute. repeat split. Qed.

Example removeExpense_on_web :
  let '(r, s) := removeExpense web_env 1 0 sample_state in
  r = Ok tt ∧
  expenses s = [] ∧
  trace s = [StorageDeleteExpense (Some lunch) []; FsDeleteFile (JStr "5.jpeg") Data].
Proof. vm_compute. repeat split. Qed.

Example getExpense_hit_and_miss :
  fst (getExpense 5 sample_state) = Ok (Some 1) ∧
  fst (getExpense 6 sample_state) = Ok None.
Proof. vm_compute. repeat split. Qed.

(** * The theorems at sample inputs *)

(** C1. A record whose identifier is 0 gets a receipt file that is not
    named after its identifier. Object 2 of [sample_state] is such a
    record, with a pending capture. In the browser [createUpdateExpense]
    completes on it and clears the pending capture; the record still has
    identifier 0; the one write that was issued, and the name the receipt
    was given, is "1700000000000.jpeg", after the clock, and not "0.jpeg",
    after the record's identifier. *)
Theorem createUpdateExpense_zero_id_file_name :
  let s' := snd (createUpdateExpense web_env 2 sample_state) in
  heap sample_state !! 2 = Some (mkExpense (Some 0%Z) captured "zero") ∧
  truthy (tempPath captured) = true ∧
  fst (createUpdateExpense web_env 2 sample_state) = Ok 2 ∧
  (id <$> heap s' !! 2) = Some (Some 0%Z) ∧
  (tempPath ∘ receipt <$> heap s' !! 2) = Some JNull ∧
  (name ∘ receipt <$> heap s' !! 2) = Some (JStr "1700000000000.jpeg") ∧
  List.filter is_write (trace s') =
    [FsWriteFile (JStr "1700000000000.jpeg") "data:image/jpeg;base64,img" Data] ∧
  JStr "1700000000000.jpeg" ≠ JStr (Number_toString 0 +:+ ".jpeg").
Proof.
  vm_compute. repeat split. discriminate.
Qed.

Lemma loadSaved_display_references_witness :
  storage_init web_env = Ok tt ∧
  storage_readExpenses web_env = Ok sample_stored ∧
  ∃ ls s', loadSaved web_env sample_state = (Ok ls, s') ∧
           expenses s' = ls ∧ length ls = length sample_stored.
Proof.
  assert (storage_init web_env = Ok tt) as H1 by reflexivity.
  assert (storage_readExpenses web_env = Ok sample_stored) as H2 by reflexivity.
  split; [exact H1|]. split; [exact H2|].
  destruct (loadSaved_display_references web_env sample_stored sample_state H1 H2)
    as (ls & s' & Hrun & Hexp & Hlen & _).
  { intros _ e _ _. exists "QUJD". reflexivity. }
  exists ls, s'. split; [exact Hrun|]. split; [exact Hexp|exact Hlen].
Defined.

Lemma savePicture_references_witness :
  savePicture native_env
    (mkPhoto (JStr "7.jpeg") (JStr "/tmp/abc.jpg") JUndefined JUndefined)
    sample_state
  = (Ok (JStr "file:///data/7.jpeg",
         JStr "capacitor://localhost/_capacitor_file_file:///data/7.jpeg"),
     log [FsReadFile (JStr "/tmp/abc.jpg") None;
          FsWriteFile (JStr "7.jpeg") "QUJD" Data] sample_state).
Proof.
  apply (proj1 (savePicture_references native_env
                  (mkPhoto (JStr "7.jpeg") (JStr "/tmp/abc.jpg") JUndefined JUndefined)
                  sample_state)); reflexivity.
Defined.

Lemma createUpdateExpense_new_prepends_witness :
  heap sample_state !! 0 = Some (mkExpense None captured "coffee") ∧
  expenses (snd (createUpdateExpense web_env 0 sample_state))
  = 0 :: expenses sample_state.
Proof.
  assert (heap sample_state !! 0 = Some (mkExpense None captured "coffee"))
    as H1 by (vm_compute; reflexivity).
  split; [exact H1|].
  apply (createUpdateExpense_new_prepends web_env 0 _ sample_state H1).
  - reflexivity.
  - right. exists (snd (persistReceipt web_env 0 (getTime web_env) sample_state)).
    vm_compute. reflexivity.
Defined.

Lemma removeExpense_removes_position_witness :
  (0 ≤ 0 < Z.of_nat (length (expenses sample_state)))%Z ∧
  S (length (expenses (snd (removeExpense web_env 1 0 sample_state))))
  = length (expenses sample_state).
Proof.
  assert (0 ≤ 0 < Z.of_nat (length (expenses sample_state)))%Z as H1
    by (simpl; lia).
  split; [exact H1|].
  apply (removeExpense_removes_position web_env 1 0 sample_state H1).
Defined.

Lemma removeExpense_file_delete_witness :
  heap sample_state !! 1 = Some lunch ∧
  ∃ evs,
    trace (snd (removeExpense web_env 1 0 sample_state))
    = trace sample_state ++ evs ∧
    List.filter is_delete evs = [FsDeleteFile (JStr "5.jpeg") Data].
Proof.
  assert (heap sample_state !! 1 = Some lunch) as H1 by (vm_compute; reflexivity).
  split; [exact H1|].
  destruct (removeExpense_file_delete web_env 1 lunch 0 sample_state H1)
    as (evs & Htrace & Hone & _).
  exists evs. split; [exact Htrace|]. apply Hone; reflexivity.
Defined.

Lemma sample_state_wf : list_wf sample_state.
Proof.
  intros l Hl. apply list_elem_of_singleton in Hl. subst l.
  exists lunch. vm_compute. reflexivity.
Defined.

Lemma getExpense_lookup_witness :
  list_wf sample_state ∧
  ∃ r, getExpense 5 sample_state = (Ok r, sample_state) ∧
       ∀ l, r = Some l →
            l ∈ expenses sample_state ∧
            ∃ e, heap sample_state !! l = Some e ∧ id e = Some 5%Z.
Proof.
  split; [exact sample_state_wf|].
  destruct (getExpense_lookup 5 sample_state sample_state_wf)
    as (r & Hrun & Hhit & _).
  exists r. split; [exact Hrun|exact Hhit].
Defined.

Lemma sample_state_inv : heap_inv sample_state.
Proof.
  intros l e Hl. unfold sample_state in Hl. simpl in Hl.
  apply lookup_insert_Some in Hl as [[_ <-]|[_ Hl]]; [by intros [_ ?]|].
  apply lookup_insert_Some in Hl as [[_ <-]|[_ Hl]]; [by intros [? _]|].
  apply lookup_insert_Some in Hl as [[_ <-]|[_ Hl]]; [by intros [_ ?]|].
  by rewrite lookup_empty in Hl.
Defined.

Lemma sample_stored_inv stored :
  storage_readExpenses web_env = Ok stored →
  Forall (λ e, receipt_inv (receipt e)) stored.
Proof.
  intros [= <-]. repeat constructor; by intros [? _].
Defined.

Lemma receipt_invariant_preserved_witness :
  heap_inv sample_state ∧
  heap_inv (snd (loadSaved web_env sample_state)) ∧
  heap_inv (snd (createUpdateExpense web_env 0 sample_state)).
Proof.
  split; [exact sample_state_inv|].
  destruct (receipt_invariant_preserved web_env sample_state
              sample_state_inv sample_stored_inv)
    as (Hload & _ & _ & Hcreate & _).
  split; [exact Hload|exact (Hcreate 0)].
Defined.

Lemma removeExpense_not_atomic_witness :
  heap sample_state !! 1 = Some lunch ∧
  (0 ≤ 0 < Z.of_nat (length (expenses sample_state)))%Z ∧
  removeExpense failing_env 1 0 sample_state
  = (Err (Rejected "storage unavailable"),
     log [StorageDeleteExpense (Some lunch) []]
         (mkState (heap sample_state) (next sample_state) [] (trace sample_state))).
Proof.
  assert (heap sample_state !! 1 = Some lunch) as H1 by (vm_compute; reflexivity).
  assert (0 ≤ 0 < Z.of_nat (length (expenses sample_state)))%Z as H2
    by (simpl; lia).
  split; [exact H1|]. split; [exact H2|].
  destruct (removeExpense_not_atomic failing_env 1 lunch 0 sample_state
              (Rejected "storage unavailable") H1 H2) as (Hfail & _ & _).
  apply Hfail. reflexivity.
Defined.

Lemma createUpdateExpense_zero_id_uses_timestamp_witness :
  heap sample_state !! 2 = Some (mkExpense (Some 0%Z) captured "zero") ∧
  ∃ e', heap (snd (createUpdateExpense web_env 2 sample_state)) !! 2 = Some e' ∧
        id e' = Some 0%Z ∧
        name (receipt e') = JStr "1700000000000.jpeg" ∧
        name (receipt e') ≠ JStr "0.jpeg".
Proof.
  assert (heap sample_state !! 2 = Some (mkExpense (Some 0%Z) captured "zero"))
    as H1 by (vm_compute; reflexivity).
  assert (createUpdateExpense web_env 2 sample_state
          = (Ok 2, snd (createUpdateExpense web_env 2 sample_state)))
    as H4 by (vm_compute; reflexivity).
  split; [exact H1|].
  destruct (createUpdateExpense_zero_id_uses_timestamp web_env 2 _ _ _ _
              H1 eq_refl eq_refl H4)
    as (e' & evs & data & arg & current & He' & Hid & _ & _ & _ & Hname & Hne).
  exists e'. split; [exact He'|]. split; [exact Hid|]. split; [exact Hname|].
  apply Hne. discriminate.
Defined.

(** * The further properties at sample inputs *)

Lemma createUpdateExpense_keeps_identities_witness :
  heap sample_state !! 2 = Some (mkExpense (Some 0%Z) captured "zero") ∧
  (∃ e1, heap (snd (createUpdateExpense web_env 2 sample_state)) !! 1 = Some e1 ∧
         details e1 = details lunch ∧ id e1 = id lunch) ∧
  expenses (snd (createUpdateExpense web_env 2 sample_state)) = [1].
Proof.
  assert (heap sample_state !! 2 = Some (mkExpense (Some 0%Z) captured "zero"))
    as H1 by (vm_compute; reflexivity).
  assert (heap sample_state !! 1 = Some lunch) as H2 by (vm_compute; reflexivity).
  split; [exact H1|].
  destruct (createUpdateExpense_keeps_identities web_env 2 _ sample_state H1)
    as (_ & Hrecords & Hlist).
  split.
  - destruct (Hrecords 1 lunch H2) as (e1 & He1 & Hdet & Hid & _).
    exists e1. split; [exact He1|]. split; [exact Hdet|].
    apply Hid. discriminate.
  - apply (Hlist 0%Z). reflexivity.
Defined.

Lemma null_record_reference_witness :
  heap sample_state !! 9 = None ∧
  createUpdateExpense web_env 9 sample_state = (Err TypeError, sample_state).
Proof.
  assert (heap sample_state !! 9 = None) as H1 by (vm_compute; reflexivity).
  split; [exact H1|].
  exact (proj1 (null_record_reference web_env 9 0 sample_state H1)).
Defined.

Lemma createUpdateExpense_without_capture_witness :
  heap sample_state !! 1 = Some lunch ∧
  truthy (tempPath (receipt lunch)) = false ∧
  ∃ ev, trace (snd (createUpdateExpense web_env 1 sample_state))
        = trace sample_state ++ [ev] ∧
        is_storage_call ev = true ∧ is_file_call ev = false.
Proof.
  assert (heap sample_state !! 1 = Some lunch) as H1 by (vm_compute; reflexivity).
  assert (truthy (tempPath (receipt lunch)) = false) as H2 by reflexivity.
  split; [exact H1|]. split; [exact H2|].
  exact (proj1 (createUpdateExpense_without_capture web_env 1 lunch sample_state H1 H2)).
Defined.


Lemma createUpdateExpense_creation_rejected_witness :
  heap sample_state !! 0 = Some (mkExpense None captured "coffee") ∧
  ∃ s', createUpdateExpense full_store_env 0 sample_state
        = (Err (Rejected "quota exceeded"), s') ∧
        expenses s' = 0 :: expenses sample_state ∧
        ∃ e', heap s' !! 0 = Some e' ∧ id e' = Some (getTime full_store_env).
Proof.
  assert (heap sample_state !! 0 = Some (mkExpense None captured "coffee"))
    as H1 by (vm_compute; reflexivity).
  split; [exact H1|].
  apply (createUpdateExpense_creation_rejected full_store_env 0 _ sample_state
           (Rejected "quota exceeded") H1).
  - reflexivity.
  - right.
    exists (snd (persistReceipt full_store_env 0 (getTime full_store_env) sample_state)).
    vm_compute. reflexivity.
  - intros arg current. reflexivity.
Defined.

Lemma create_then_getExpense_witness :
  heap sample_state !! 0 = Some (mkExpense None captured "coffee") ∧
  getExpense 1700000000000 (snd (createUpdateExpense web_env 0 sample_state))
  = (Ok (Some 0), snd (createUpdateExpense web_env 0 sample_state)).
Proof.
  assert (heap sample_state !! 0 = Some (mkExpense None captured "coffee"))
    as H1 by (vm_compute; reflexivity).
  assert (createUpdateExpense web_env 0 sample_state
          = (Ok 0, snd (createUpdateExpense web_env 0 sample_state)))
    as H3 by (vm_compute; reflexivity).
  split; [exact H1|].
  exact (create_then_getExpense web_env 0 _ sample_state 0 _ H1 eq_refl H3).
Defined.

Lemma create_then_remove_witness :
  heap sample_state !! 0 = Some (mkExpense None captured "coffee") ∧
  expenses (snd (removeExpense web_env 0 0
                   (snd (createUpdateExpense web_env 0 sample_state))))
  = expenses sample_state.
Proof.
  assert (heap sample_state !! 0 = Some (mkExpense None captured "coffee"))
    as H1 by (vm_compute; reflexivity).
  assert (createUpdateExpense web_env 0 sample_state
          = (Ok 0, snd (createUpdateExpense web_env 0 sample_state)))
    as H3 by (vm_compute; reflexivity).
  split; [exact H1|].
  exact (proj1 (create_then_remove web_env 0 _ sample_state 0 _ H1 eq_refl H3)).
Defined.

Lemma createUpdateExpense_identifier_collision_witness :
  heap two_new_state !! 0 = Some (mkExpense None captured "coffee") ∧
  heap two_new_state !! 1 = Some (mkExpense None captured "tea") ∧
  let s1 := snd (createUpdateExpense web_env 0 two_new_state) in
  let s2 := snd (createUpdateExpense web_env 1 s1) in
  expenses s2 = [1; 0] ∧
  getExpense (getTime web_env) s2 = (Ok (Some 1), s2).
Proof.
  assert (heap two_new_state !! 0 = Some (mkExpense None captured "coffee"))
    as H1 by (vm_compute; reflexivity).
  assert (heap two_new_state !! 1 = Some (mkExpense None captured "tea"))
    as H2 by (vm_compute; reflexivity).
  assert (createUpdateExpense web_env 0 two_new_state
          = (Ok 0, snd (createUpdateExpense web_env 0 two_new_state)))
    as H3 by (vm_compute; reflexivity).
  assert (createUpdateExpense web_env 1 (snd (createUpdateExpense web_env 0 two_new_state))
          = (Ok 1, snd (createUpdateExpense web_env 1
                          (snd (createUpdateExpense web_env 0 two_new_state)))))
    as H4 by (vm_compute; reflexivity).
  split; [exact H1|]. split; [exact H2|].
  destruct (createUpdateExpense_identifier_collision web_env 0 1 _ _ two_new_state
              0 _ 1 _ ltac:(discriminate) H1 eq_refl H2 eq_refl H3 H4)
    as (Hlist & Hget & _).
  split; [exact Hlist|exact Hget].
Defined.

Lemma getExpense_first_match_witness :
  getExpense 5 sample_state = (Ok (Some 1), sample_state) ∧
  ∃ i, expenses sample_state !! i = Some 1 ∧
       ∃ e, heap sample_state !! 1 = Some e ∧ id e = Some 5%Z.
Proof.
  assert (getExpense 5 sample_state = (Ok (Some 1), sample_state)) as H1
    by (vm_compute; reflexivity).
  split; [exact H1|].
  destruct (getExpense_first_match 5 sample_state 1 sample_state H1)
    as (i & Hi & He & _).
  exists i. split; [exact Hi|exact He].
Defined.

Lemma list_without_null_preserved_witness :
  list_wf sample_state ∧
  list_wf (snd (loadSaved web_env sample_state)) ∧
  list_wf (snd (createUpdateExpense web_env 0 sample_state)) ∧
  list_wf (snd (removeExpense web_env 1 0 sample_state)).
Proof.
  split; [exact sample_state_wf|].
  destruct (list_without_null_preserved web_env sample_state sample_state_wf)
    as (Hload & Hcreate & Hremove & _).
  split; [exact Hload|]. split; [exact (Hcreate 0)|exact (Hremove 1 0%Z)].
Defined.

Lemma removeExpense_unchecked_position_witness :
  heap sample_state !! 1 = Some lunch ∧
  expenses (snd (removeExpense web_env 1 4 sample_state)) = expenses sample_state ∧
  ∃ evs,
    trace (snd (removeExpense web_env 1 4 sample_state))
    = trace sample_state ++ StorageDeleteExpense (Some lunch) [Some lunch] :: evs.
Proof.
  assert (heap sample_state !! 1 = Some lunch) as H1 by (vm_compute; reflexivity).
  split; [exact H1|].
  destruct (removeExpense_unchecked_position web_env 1 lunch 4 sample_state H1)
    as (Hpast & _).
  destruct Hpast as (Hlist & evs & Htrace & _); [simpl; lia|].
  split; [exact Hlist|]. exists evs. exact Htrace.
Defined.


Lemma loadSaved_calls_witness :
  storage_init web_env = Ok tt ∧
  storage_readExpenses web_env = Ok sample_stored ∧
  trace (snd (loadSaved web_env sample_state))
  = [StorageInit; StorageReadExpenses; FsReadFile (JStr "5.jpeg") (Some Data)].
Proof.
  assert (storage_init web_env = Ok tt) as H1 by reflexivity.
  assert (storage_readExpenses web_env = Ok sample_stored) as H2 by reflexivity.
  split; [exact H1|]. split; [exact H2|].
  apply (loadSaved_calls web_env sample_stored sample_state H1 H2).
  intros _ e _ _. exists "QUJD". reflexivity.
Defined.

Lemma loadSaved_rejected_half_way_witness :
  storage_readExpenses missing_file_env = Ok ([lunch] ++ dinner :: [hotel]) ∧
  ∃ s', loadSaved missing_file_env sample_state
        = (Err (Rejected "File does not exist"), s') ∧
        expenses s' = [3; 4; 5].
Proof.
  assert (storage_readExpenses missing_file_env = Ok ([lunch] ++ dinner :: [hotel]))
    as H2 by reflexivity.
  split; [exact H2|].
  destruct (loadSaved_rejected_half_way missing_file_env [lunch] dinner [hotel]
              sample_state (Rejected "File does not exist") eq_refl H2 eq_refl)
    as (s' & Hrun & Hlist & _).
  - intros e0 He0 _. exists "QUJD".
    apply list_elem_of_singleton in He0. subst e0. reflexivity.
  - reflexivity.
  - reflexivity.
  - exists s'. split; [exact Hrun|exact Hlist].
Defined.
